(** * Blink-Detection: flicker detector and recipe runner

    A shallow embedding of the renderer component ([App]: [handleSensorData],
    [resetFlickerDetection], [toggleFlickerDetection], [runRecipe] and the
    Run Recipe button) and of the main-process IPC handlers ([send-command],
    [start-flicker-detection], [stop-flicker-detection]).

    JavaScript numbers are IEEE-754 binary64 values: they are modelled by the
    primitive floats of the kernel, so every arithmetic expression of the
    source is evaluated with the rounding, the infinities and the NaN that
    the program really sees. *)

From Stdlib Require Import ZArith List Ascii String Bool Lia Floats DecimalString.
Import ListNotations.

Local Open Scope string_scope.
Local Open Scope list_scope.
Local Open Scope Z_scope.

(* ------------------------------------------------------------------ *)
(** ** JavaScript numbers *)

Module JS.

Definition number := float.

(** [a > b] is [b < a]; both are false as soon as one side is NaN. *)
Definition gtb (a b : number) : bool := PrimFloat.ltb b a.

(** [Math.abs]. *)
Definition Math_abs (x : number) : number := PrimFloat.abs x.

(** [Math.min(a, b)]: NaN if either is NaN, and -0 is below +0. *)
Definition Math_min (a b : number) : number :=
  if PrimFloat.is_nan a || PrimFloat.is_nan b then PrimFloat.nan
  else if PrimFloat.ltb a b then a
  else if PrimFloat.ltb b a then b
  else match PrimFloat.classify a with NZero => a | _ => b end.

(** [Math.max(a, b)]: NaN if either is NaN, and +0 is above -0. *)
Definition Math_max (a b : number) : number :=
  if PrimFloat.is_nan a || PrimFloat.is_nan b then PrimFloat.nan
  else if PrimFloat.ltb b a then a
  else if PrimFloat.ltb a b then b
  else match PrimFloat.classify a with PZero => a | _ => b end.

(** The number whose mathematical value is the integer [z] (rounded to
    nearest-even when [z] needs more than 53 bits). *)
Definition of_Z (z : Z) : number :=
  SF2Prim (binary_normalize prec emax z 0 false).

(** What [Number.prototype.toFixed] returns: a digit string, or, for
    magnitudes of 1e21 and more, the result of [Number::toString], which
    is kept symbolic. *)
Inductive text :=
| Str (s : string)
| NumberToString (x : number).

(** Decimal digits of a natural number ("0" for zero). *)
Definition digits (n : N) : string :=
  NilZero.string_of_uint (N.to_uint n).

Fixpoint zeros (k : nat) : string :=
  match k with
  | O => EmptyString
  | S k' => String "0"%char (zeros k')
  end.

(** The integer [n] for which [n / 10^f - m * 2^e] is as close to zero as
    possible, the larger one when two are equally close. *)
Definition nearest_scaled (f : N) (m : positive) (e : Z) : N :=
  let num := Z.pos m * 10 ^ Z.of_N f in
  match e with
  | Zneg p =>
      let den := Z.pow_pos 2 p in
      Z.to_N ((2 * num + den) / (2 * den))
  | _ => Z.to_N (num * 2 ^ e)
  end.

(** The digit string of step 10 of [toFixed]: [n] padded on the left with
    zeros to [f + 1] characters, with a point before the last [f]. *)
Definition place_point (f : N) (n : N) : string :=
  let m := digits n in
  if (f =? 0)%N then m
  else
    let k := String.length m in
    let fn := N.to_nat f in
    let m' := if (k <=? fn)%nat then (zeros (fn + 1 - k) ++ m)%string else m in
    let k' := String.length m' in
    (substring 0 (k' - fn) m' ++ "." ++ substring (k' - fn) fn m')%string.

(** [x.toFixed(f)] for [0 <= f <= 100]. *)
Definition toFixed (f : N) (x : number) : text :=
  match Prim2SF x with
  | S754_nan => Str "NaN"
  | S754_infinity false => Str "Infinity"
  | S754_infinity true => Str "-Infinity"
  | S754_zero _ => Str (place_point f 0)
  | S754_finite s m e =>
      if PrimFloat.leb 1e21 (PrimFloat.abs x) then NumberToString x
      else
        let body := place_point f (nearest_scaled f m e) in
        Str (if s then ("-" ++ body)%string else body)
  end.

End JS.

(* ------------------------------------------------------------------ *)
(** ** Data of the renderer component *)

(** The two keys of the per-sensor objects, [['sensor1', 'sensor2']]. *)
Inductive SensorId := sensor1 | sensor2.

Definition SensorId_eqb (a b : SensorId) : bool :=
  match a, b with
  | sensor1, sensor1 | sensor2, sensor2 => true
  | _, _ => false
  end.

(** An object [{ sensor1: _, sensor2: _ }]. *)
Record PerSensor (A : Type) := mkPerSensor { at_sensor1 : A; at_sensor2 : A }.
Arguments mkPerSensor {A} _ _.
Arguments at_sensor1 {A} _.
Arguments at_sensor2 {A} _.

(** [o[k]] *)
Definition get {A} (o : PerSensor A) (k : SensorId) : A :=
  match k with
  | sensor1 => at_sensor1 o
  | sensor2 => at_sensor2 o
  end.

(** [o[k] = v], and also [{ ...o, [k]: v }] *)
Definition set {A} (o : PerSensor A) (k : SensorId) (v : A) : PerSensor A :=
  match k with
  | sensor1 => mkPerSensor v (at_sensor2 o)
  | sensor2 => mkPerSensor (at_sensor1 o) v
  end.

(** [const FLICKER_THRESHOLD = 1] *)
Definition FLICKER_THRESHOLD : JS.number := 1%float.

(** An instant, as the time value (milliseconds since the epoch) that
    [new Date().toISOString()] prints and [new Date(string)] reads back. *)
Definition Timestamp := Z.

(** The object stored in [activeFlickers.current[sensorId]] while a flicker
    is in progress. *)
Record Flicker := mkFlicker {
  startTime : Timestamp;
  initialValue : JS.number;
  minValue : JS.number;
  maxPercentChange : JS.number
}.

(** [flickerData], the row sent on the [log-flicker] channel. *)
Module FlickerData.
Record t := mk {
  sensor : SensorId;
  startTime : Timestamp;
  endTime : Timestamp;
  duration : JS.text;
  initialValue : JS.text;
  minimumValue : JS.text;
  percentChange : JS.text
}.
End FlickerData.

(** The calls [ipcRenderer.invoke('log-flicker', _)] and
    [ipcRenderer.invoke('log-data', _)] made by [handleSensorData]; neither
    is awaited and neither result is read. *)
Inductive LogCall :=
| log_flicker (flickerData : FlickerData.t)
| log_data (timestamp : Timestamp) (s1 s2 : JS.text) (active1 active2 : bool).

(** A step of a recipe, as [addRecipeStep] receives them from the seven
    buttons of the recipe builder. A delay carries its [duration] in
    seconds; the builder's only delay is of 5. *)
Inductive Step :=
| startFlicker
| endFlicker
| connectUSB
| disconnectUSB
| sleep
| wake
| delay (duration : Z).

(** The state of [App]: its [useState] cells and its two [useRef] cells.
    The flicker counts only ever hold 0 or the successor of a count: they
    are integers (a JavaScript number is exact on them below 2^53). *)
Record App := mkApp {
  isConnected : bool;
  status : string;
  sensorData : PerSensor JS.number;
  recipe : list Step;
  isRunningRecipe : bool;
  isFlickerDetectionRunning : bool;
  flickerCount : PerSensor Z;
  lastValues : PerSensor (option JS.number);
  activeFlickers : PerSensor (option Flicker)
}.

Definition setIsConnected (b : bool) (a : App) : App :=
  mkApp b (status a) (sensorData a) (recipe a) (isRunningRecipe a)
        (isFlickerDetectionRunning a) (flickerCount a) (lastValues a)
        (activeFlickers a).

Definition setStatus (s : string) (a : App) : App :=
  mkApp (isConnected a) s (sensorData a) (recipe a) (isRunningRecipe a)
        (isFlickerDetectionRunning a) (flickerCount a) (lastValues a)
        (activeFlickers a).

Definition setSensorData (d : PerSensor JS.number) (a : App) : App :=
  mkApp (isConnected a) (status a) d (recipe a) (isRunningRecipe a)
        (isFlickerDetectionRunning a) (flickerCount a) (lastValues a)
        (activeFlickers a).

Definition setRecipe (r : list Step) (a : App) : App :=
  mkApp (isConnected a) (status a) (sensorData a) r (isRunningRecipe a)
        (isFlickerDetectionRunning a) (flickerCount a) (lastValues a)
        (activeFlickers a).

Definition setIsRunningRecipe (b : bool) (a : App) : App :=
  mkApp (isConnected a) (status a) (sensorData a) (recipe a) b
        (isFlickerDetectionRunning a) (flickerCount a) (lastValues a)
        (activeFlickers a).

Definition setIsFlickerDetectionRunning (b : bool) (a : App) : App :=
  mkApp (isConnected a) (status a) (sensorData a) (recipe a)
        (isRunningRecipe a) b (flickerCount a) (lastValues a)
        (activeFlickers a).

Definition setFlickerCount (c : PerSensor Z) (a : App) : App :=
  mkApp (isConnected a) (status a) (sensorData a) (recipe a)
        (isRunningRecipe a) (isFlickerDetectionRunning a) c (lastValues a)
        (activeFlickers a).

Definition setLastValues (l : PerSensor (option JS.number)) (a : App) : App :=
  mkApp (isConnected a) (status a) (sensorData a) (recipe a)
        (isRunningRecipe a) (isFlickerDetectionRunning a) (flickerCount a) l
        (activeFlickers a).

Definition setActiveFlickers (f : PerSensor (option Flicker)) (a : App) : App :=
  mkApp (isConnected a) (status a) (sensorData a) (recipe a)
        (isRunningRecipe a) (isFlickerDetectionRunning a) (flickerCount a)
        (lastValues a) f.

(** The state of the first render. *)
Definition initialApp : App :=
  mkApp false "Disconnected" (mkPerSensor 0%float 0%float) [] false false
        (mkPerSensor 0 0) (mkPerSensor None None) (mkPerSensor None None).

(* ------------------------------------------------------------------ *)
(** ** The flicker detector: [handleSensorData] *)

(** [((lastValue - currentValue) / lastValue) * 100] *)
Definition percentChangeOf (lastValue currentValue : JS.number) : JS.number :=
  ((lastValue - currentValue) / lastValue * 100)%float.

(** [Math.abs((currentValue - flicker.initialValue) / flicker.initialValue) * 100] *)
Definition returnPercentChangeOf (currentValue initial : JS.number) : JS.number :=
  (JS.Math_abs ((currentValue - initial) / initial) * 100)%float.

(** The test of "Check for start of flicker":
    [Math.abs(percentChange) > FLICKER_THRESHOLD && !activeFlickers.current[sensorId]] *)
Definition startsFlicker (percentChange : JS.number) (active : option Flicker) : bool :=
  JS.gtb (JS.Math_abs percentChange) FLICKER_THRESHOLD
  && match active with Some _ => false | None => true end.

(** "Check for start of flicker": the assignment of a new object to
    [activeFlickers.current[sensorId]]. *)
Definition checkStart (timestamp : Timestamp) (sensorId : SensorId)
    (lastValue currentValue percentChange : JS.number) (a : App) : App :=
  if startsFlicker percentChange (get (activeFlickers a) sensorId) then
    setActiveFlickers
      (set (activeFlickers a) sensorId
           (Some (mkFlicker timestamp lastValue currentValue
                            (JS.Math_abs percentChange)))) a
  else a.

(** The two assignments to [flicker.minValue] and [flicker.maxPercentChange]. *)
Definition updateFlicker (currentValue percentChange : JS.number)
    (flicker : Flicker) : Flicker :=
  mkFlicker (startTime flicker) (initialValue flicker)
            (JS.Math_min (minValue flicker) currentValue)
            (JS.Math_max (maxPercentChange flicker) (JS.Math_abs percentChange)).

(** The object literal [flickerData]. *)
Definition flickerDataOf (sensorId : SensorId) (endTime : Timestamp)
    (flicker : Flicker) : FlickerData.t :=
  let duration := ((JS.of_Z endTime - JS.of_Z (startTime flicker)) / 1000)%float in
  FlickerData.mk sensorId (startTime flicker) endTime
                 (JS.toFixed 3 duration)
                 (JS.toFixed 3 (initialValue flicker))
                 (JS.toFixed 3 (minValue flicker))
                 (JS.toFixed 2 (maxPercentChange flicker)).

(** "Update active flicker": runs when [activeFlickers.current[sensorId]]
    is an object, whether it was just created or not. *)
Definition updateActive (timestamp : Timestamp) (sensorId : SensorId)
    (currentValue percentChange : JS.number) (a : App) : App * list LogCall :=
  match get (activeFlickers a) sensorId with
  | Some flicker0 =>
      let flicker := updateFlicker currentValue percentChange flicker0 in
      let a1 := setActiveFlickers (set (activeFlickers a) sensorId (Some flicker)) a in
      let returnPercentChange := returnPercentChangeOf currentValue (initialValue flicker) in
      if PrimFloat.ltb returnPercentChange FLICKER_THRESHOLD then
        let a2 := setFlickerCount
                    (set (flickerCount a1) sensorId (get (flickerCount a1) sensorId + 1)) a1 in
        let a3 := setActiveFlickers (set (activeFlickers a2) sensorId None) a2 in
        (a3, [log_flicker (flickerDataOf sensorId timestamp flicker)])
      else (a1, [])
  | None => (a, [])
  end.

(** The body of the [forEach] callback, for one [sensorId]. *)
Definition processSensor (timestamp : Timestamp) (data : PerSensor JS.number)
    (sensorId : SensorId) (a : App) : App * list LogCall :=
  let currentValue := get data sensorId in
  let '(a1, out) :=
    match get (lastValues a) sensorId with
    | Some lastValue =>
        let percentChange := percentChangeOf lastValue currentValue in
        updateActive timestamp sensorId currentValue percentChange
          (checkStart timestamp sensorId lastValue currentValue percentChange a)
    | None => (a, [])
    end in
  (setLastValues (set (lastValues a1) sensorId (Some currentValue)) a1, out).

Definition isActive (a : App) (sensorId : SensorId) : bool :=
  match get (activeFlickers a) sensorId with Some _ => true | None => false end.

(** [handleSensorData (event, data)], called at the instant [timestamp].
    [a] gives the state cells as the closure of the handler sees them; in
    particular [isFlickerDetectionRunning a] is the value that the handler
    tests. *)
Definition handleSensorData (timestamp : Timestamp) (data : PerSensor JS.number)
    (a : App) : App * list LogCall :=
  let a0 := setSensorData data a in
  if isFlickerDetectionRunning a0 then
    let '(a1, out1) := processSensor timestamp data sensor1 a0 in
    let '(a2, out2) := processSensor timestamp data sensor2 a1 in
    (a2, out1 ++ out2 ++
         [log_data timestamp
                   (JS.toFixed 3 (get data sensor1)) (JS.toFixed 3 (get data sensor2))
                   (isActive a2 sensor1) (isActive a2 sensor2)])
  else (a0, []).

(** [resetFlickerDetection ()] *)
Definition resetFlickerDetection (a : App) : App :=
  setFlickerCount (mkPerSensor 0 0)
    (setActiveFlickers (mkPerSensor None None)
       (setLastValues (mkPerSensor None None) a)).

(** A stream of [sensor-data] events, each with the instant it is handled at. *)
Definition Sample := (Timestamp * PerSensor JS.number)%type.

Fixpoint handleAll (samples : list Sample) (a : App) : App * list LogCall :=
  match samples with
  | [] => (a, [])
  | (timestamp, data) :: rest =>
      let '(a1, out1) := handleSensorData timestamp data a in
      let '(a2, out2) := handleAll rest a1 in
      (a2, out1 ++ out2)
  end.

(** The [log-flicker] rows of one sensor among the calls made. *)
Fixpoint flickersOf (sensorId : SensorId) (calls : list LogCall) : list FlickerData.t :=
  match calls with
  | [] => []
  | log_flicker fd :: rest =>
      if SensorId_eqb (FlickerData.sensor fd) sensorId
      then fd :: flickersOf sensorId rest
      else flickersOf sensorId rest
  | log_data _ _ _ _ _ :: rest => flickersOf sensorId rest
  end.

(* ------------------------------------------------------------------ *)
(** ** The main process: the IPC handlers that a recipe reaches *)

(** What an [ipcMain.handle] callback resolves to:
    [{ success: true }] or [{ success: false, error: message }]. *)
Record IpcResult := mkResult { success : bool; error : string }.

(** A result without an [error] property prints it as "undefined". *)
Definition succeeded : IpcResult := mkResult true "undefined".
Definition failed (message : string) : IpcResult := mkResult false message.

(** The channels that [runRecipe] and [toggleFlickerDetection] invoke. *)
Inductive Channel :=
| send_command (command : string)
| start_flicker_detection
| stop_flicker_detection.

(** What the surroundings do to one [invoke]: nothing, an error raised by
    the I/O operation inside the handler ([serialPort.write] calling back
    with [err], a file-system call throwing), or a rejection of the
    [invoke] promise itself by the IPC layer. *)
Inductive Fault :=
| no_fault
| io_error (message : string)
| ipc_rejects (message : string).

Module Main.

(** The module-level variables of main.js that the three handlers use. *)
Record t := mk {
  serialPortOpen : bool;            (* serialPort && serialPort.isOpen *)
  dataInterval : bool;              (* dataInterval holds a timer id *)
  polling : bool;                   (* that timer is still armed *)
  isFlickerDetectionActive : bool;
  logFilesCreated : bool;           (* sensorLogFile and flickerLogFile are set *)
  written : list string             (* what was written to the port on request *)
}.

(** [ipcMain.handle('send-command', async (event, command) => ...)] *)
Definition send_command_handler (command : string) (fault : Fault) (m : t)
    : IpcResult * t :=
  if negb (serialPortOpen m) then (failed "Serial port is not open", m)
  else
    let m1 := mk (serialPortOpen m) (dataInterval m)
                 (if dataInterval m then false else polling m)
                 (isFlickerDetectionActive m) (logFilesCreated m) (written m) in
    match fault with
    | io_error message => (failed message, m1)
    | _ =>
        let m2 := mk (serialPortOpen m1) (dataInterval m1)
                     (if dataInterval m1 then true else polling m1)
                     (isFlickerDetectionActive m1) (logFilesCreated m1)
                     (written m1 ++ [(command ++ String "010"%char EmptyString)%string]) in
        (succeeded, m2)
    end.

(** [ipcMain.handle('start-flicker-detection', ...)] *)
Definition start_flicker_detection_handler (fault : Fault) (m : t)
    : IpcResult * t :=
  if negb (serialPortOpen m) then (failed "Serial port is not connected", m)
  else
    match fault with
    | io_error message => (failed message, m)
    | _ =>
        (succeeded,
         mk (serialPortOpen m) (dataInterval m) (polling m) true true (written m))
    end.

(** [ipcMain.handle('stop-flicker-detection', ...)] *)
Definition stop_flicker_detection_handler (fault : Fault) (m : t)
    : IpcResult * t :=
  let m1 := mk (serialPortOpen m) (dataInterval m) (polling m) false
               (logFilesCreated m) (written m) in
  match fault with
  | io_error message => (failed message, m1)
  | _ => (succeeded, m1)
  end.

Definition handle (channel : Channel) (fault : Fault) (m : t) : IpcResult * t :=
  match channel with
  | send_command command => send_command_handler command fault m
  | start_flicker_detection => start_flicker_detection_handler fault m
  | stop_flicker_detection => stop_flicker_detection_handler fault m
  end.

End Main.

(* ------------------------------------------------------------------ *)
(** ** The recipe runner: [toggleFlickerDetection] and [runRecipe] *)

(** What a run does that can be observed from outside the component. *)
Inductive Effect :=
| invoked (channel : Channel) (result : option IpcResult)  (* [None]: the promise rejected *)
| timeout (ms : Z).                                        (* [setTimeout(resolve, ms)] awaited *)

Record World := mkWorld {
  app : App;
  main : Main.t;
  faults : list Fault;     (* what happens to the next invokes, in order *)
  trace : list Effect      (* oldest first *)
}.

(** An [async] computation: it returns or throws, and changes the world. *)
Inductive Outcome (A : Type) :=
| Returned (x : A)
| Threw (message : string).
Arguments Returned {A} _.
Arguments Threw {A} _.

Definition Async (A : Type) := World -> Outcome A * World.

Definition ret {A} (x : A) : Async A := fun w => (Returned x, w).

Definition bind {A B} (c : Async A) (k : A -> Async B) : Async B :=
  fun w =>
    match c w with
    | (Returned x, w1) => k x w1
    | (Threw message, w1) => (Threw message, w1)
    end.

Notation "x <- c ;; k" := (bind c (fun x => k))
  (at level 61, c at next level, right associativity).
Notation "c ;;; k" := (bind c (fun _ => k))
  (at level 61, right associativity).

(** A state setter or a ref assignment of the component. *)
Definition update (f : App -> App) : Async unit :=
  fun w => (Returned tt, mkWorld (f (app w)) (main w) (faults w) (trace w)).

(** [await ipcRenderer.invoke(channel, ...)] *)
Definition invoke (channel : Channel) : Async IpcResult :=
  fun w =>
    let fault := match faults w with f :: _ => f | [] => no_fault end in
    let rest := match faults w with _ :: r => r | [] => [] end in
    match fault with
    | ipc_rejects message =>
        (Threw message,
         mkWorld (app w) (main w) rest (trace w ++ [invoked channel None]))
    | _ =>
        let '(result, m) := Main.handle channel fault (main w) in
        (Returned result,
         mkWorld (app w) m rest (trace w ++ [invoked channel (Some result)]))
    end.

(** [await new Promise(resolve => setTimeout(resolve, ms))] *)
Definition sleepFor (ms : Z) : Async unit :=
  fun w => (Returned tt, mkWorld (app w) (main w) (faults w) (trace w ++ [timeout ms])).

(** [toggleFlickerDetection ()], in a render where [isFlickerDetectionRunning]
    had the value [running]. *)
Definition toggleFlickerDetection (running : bool) : Async unit :=
  if negb running then
    result <- invoke start_flicker_detection ;;
    if success result then
      update (setIsFlickerDetectionRunning true) ;;;
      update (setStatus "Flicker Detection Running") ;;;
      update resetFlickerDetection
    else update (setStatus ("Error: " ++ error result))
  else
    result <- invoke stop_flicker_detection ;;
    if success result then
      update (setIsFlickerDetectionRunning false) ;;;
      update (setStatus "Flicker Detection Stopped")
    else update (setStatus ("Error: " ++ error result)).

(** The [switch (step.type)] of [runRecipe]. *)
Definition switchStep (running : bool) (step : Step) : Async unit :=
  match step with
  | startFlicker => if negb running then toggleFlickerDetection running else ret tt
  | endFlicker => if running then toggleFlickerDetection running else ret tt
  | connectUSB => invoke (send_command "c") ;;; ret tt
  | disconnectUSB => invoke (send_command "d") ;;; ret tt
  | sleep => invoke (send_command "s") ;;; ret tt
  | wake => invoke (send_command "w") ;;; ret tt
  | delay duration => sleepFor (duration * 1000)
  end.

(** The body of the [try] block: the switch, then the pause between steps. *)
Definition tryStep (running : bool) (step : Step) : Async unit :=
  switchStep running step ;;; sleepFor 100.

(** The [for (const step of recipe)] loop with its [catch] and [break].
    [running] is the value of [isFlickerDetectionRunning] that the closure
    of [runRecipe] captured; it does not change during the loop. *)
Fixpoint forSteps (running : bool) (steps : list Step) (w : World) : World :=
  match steps with
  | [] => w
  | step :: rest =>
      match tryStep running step w with
      | (Returned _, w1) => forSteps running rest w1
      | (Threw message, w1) =>
          snd (update (setStatus ("Recipe Error: " ++ message)) w1)
      end
  end.

(** [runRecipe ()], called in the render whose state is [app w]. *)
Definition runRecipe (w : World) : World :=
  let running := isFlickerDetectionRunning (app w) in
  let steps := recipe (app w) in
  let w1 := snd (update (setIsRunningRecipe true) w) in
  let w2 := forSteps running steps w1 in
  snd (update (setIsRunningRecipe false) w2).

(* ------------------------------------------------------------------ *)
(** ** The page: clicks and suspended runs *)

(** A call of [runRecipe] suspended at an [await]: the values its closure
    captured and the steps the loop has not reached yet. *)
Record Run := mkRun { captured : bool; pending : list Step }.

Record Page := mkPage { world : World; runs : list Run }.

Inductive Event :=
| clickAddStep (step : Step)        (* one of the recipe builder's buttons *)
| clickRunRecipe                    (* the Run Recipe button *)
| clickToggleFlickerDetection       (* the Start/Stop Flicker Detection button *)
| resume (k : nat).                 (* the [k]-th suspended run continues *)

(** [addRecipeStep (step)] *)
Definition addRecipeStep (step : Step) (a : App) : App :=
  setRecipe (recipe a ++ [step]) a.

(** [disabled={isRunningRecipe || recipe.length === 0}] *)
Definition runRecipeDisabled (a : App) : bool :=
  isRunningRecipe a || match recipe a with [] => true | _ => false end.

Fixpoint removeNth {A} (k : nat) (l : list A) : list A :=
  match k, l with
  | _, [] => []
  | O, _ :: rest => rest
  | S k', x :: rest => x :: removeNth k' rest
  end.

Fixpoint replaceNth {A} (k : nat) (y : A) (l : list A) : list A :=
  match k, l with
  | _, [] => []
  | O, _ :: rest => y :: rest
  | S k', x :: rest => x :: replaceNth k' y rest
  end.

(** The end of [runRecipe]: [setIsRunningRecipe(false)], and the call is over. *)
Definition leave (k : nat) (w : World) (p : Page) : Page :=
  mkPage (snd (update (setIsRunningRecipe false) w)) (removeNth k (runs p)).

(** One turn of the event loop. A disabled button dispatches no click. A
    resumed run goes once round its loop, and leaves it when that was the
    last step or when the step throws. *)
Definition react (e : Event) (p : Page) : Page :=
  let w := world p in
  match e with
  | clickAddStep step =>
      mkPage (snd (update (addRecipeStep step) w)) (runs p)
  | clickRunRecipe =>
      if runRecipeDisabled (app w) then p
      else
        mkPage (snd (update (setIsRunningRecipe true) w))
               (runs p ++ [mkRun (isFlickerDetectionRunning (app w)) (recipe (app w))])
  | clickToggleFlickerDetection =>
      if negb (isConnected (app w)) then p
      else mkPage (snd (toggleFlickerDetection (isFlickerDetectionRunning (app w)) w)) (runs p)
  | resume k =>
      match nth_error (runs p) k with
      | None => p
      | Some r =>
          match pending r with
          | [] => leave k w p
          | step :: rest =>
              match tryStep (captured r) step w with
              | (Returned _, w1) =>
                  match rest with
                  | [] => leave k w1 p
                  | _ :: _ => mkPage w1 (replaceNth k (mkRun (captured r) rest) (runs p))
                  end
              | (Threw message, w1) =>
                  leave k (snd (update (setStatus ("Recipe Error: " ++ message)) w1)) p
              end
          end
      end
  end.

Fixpoint reactAll (events : list Event) (p : Page) : Page :=
  match events with
  | [] => p
  | e :: rest => reactAll rest (react e p)
  end.

(** The page after the first render, in front of a given main process. *)
Definition initialPage (m : Main.t) (fs : list Fault) : Page :=
  mkPage (mkWorld initialApp m fs []) [].

(* ------------------------------------------------------------------ *)
(** ** One sensor at a time *)

(** What [handleSensorData] reads and writes for one sensor: its last
    value, its flicker in progress and its count. *)
Definition Channel1 := (option JS.number * option Flicker * Z)%type.

Definition view (sensorId : SensorId) (a : App) : Channel1 :=
  (get (lastValues a) sensorId, get (activeFlickers a) sensorId,
   get (flickerCount a) sensorId).

(** The [forEach] callback read on the cells of one sensor: the new cells
    and the flicker that ended, if one did. *)
Definition stepChannel (timestamp : Timestamp) (currentValue : JS.number)
    (c : Channel1) : Channel1 * list Flicker :=
  let '(last, active, count) := c in
  match last with
  | None => ((Some currentValue, active, count), [])
  | Some lastValue =>
      let percentChange := percentChangeOf lastValue currentValue in
      let active1 :=
        if startsFlicker percentChange active
        then Some (mkFlicker timestamp lastValue currentValue (JS.Math_abs percentChange))
        else active in
      match active1 with
      | Some flicker0 =>
          let flicker := updateFlicker currentValue percentChange flicker0 in
          if PrimFloat.ltb (returnPercentChangeOf currentValue (initialValue flicker))
                           FLICKER_THRESHOLD
          then ((Some currentValue, None, count + 1), [flicker])
          else ((Some currentValue, Some flicker, count), [])
      | None => ((Some currentValue, None, count), [])
      end
  end.

(** [handleAll] read on the cells of one sensor. *)
Fixpoint runChannel (sensorId : SensorId) (samples : list Sample) (c : Channel1)
    : Channel1 * list FlickerData.t :=
  match samples with
  | [] => (c, [])
  | (timestamp, data) :: rest =>
      let '(c1, ended) := stepChannel timestamp (get data sensorId) c in
      let '(c2, out) := runChannel sensorId rest c1 in
      (c2, map (flickerDataOf sensorId timestamp) ended ++ out)
  end.

(** Whether the reading [data] opens a flicker on [sensorId] in state [a]:
    the "start of flicker" test is reached and holds. *)
Definition opensAt (data : PerSensor JS.number) (a : App) (sensorId : SensorId) : bool :=
  match get (lastValues a) sensorId with
  | Some lastValue =>
      startsFlicker (percentChangeOf lastValue (get data sensorId))
                    (get (activeFlickers a) sensorId)
  | None => false
  end.

(** How many readings of a stream open a flicker on [sensorId]. *)
Fixpoint opened (sensorId : SensorId) (samples : list Sample) (a : App) : nat :=
  match samples with
  | [] => O
  | (timestamp, data) :: rest =>
      ((if isFlickerDetectionRunning a && opensAt data a sensorId then 1 else 0)
       + opened sensorId rest (fst (handleSensorData timestamp data a)))%nat
  end.

(** An effect without the result it had. *)
Inductive Shape :=
| called (channel : Channel)
| waited (ms : Z).

Definition shapeOf (e : Effect) : Shape :=
  match e with
  | invoked channel _ => called channel
  | timeout ms => waited ms
  end.

(** What the [switch] does for a step, read off its cases. *)
Definition switchShape (running : bool) (step : Step) : list Shape :=
  match step with
  | startFlicker => if running then [] else [called start_flicker_detection]
  | endFlicker => if running then [called stop_flicker_detection] else []
  | connectUSB => [called (send_command "c")]
  | disconnectUSB => [called (send_command "d")]
  | sleep => [called (send_command "s")]
  | wake => [called (send_command "w")]
  | delay duration => [waited (duration * 1000)]
  end.

(** A step carried to its end: the switch, then the pause of 100 ms. *)
Definition stepShape (running : bool) (step : Step) : list Shape :=
  switchShape running step ++ [waited 100].

(** The least time a sequence of effects takes: a timer does not fire
    before its delay has passed (for delays that the timers of the platform
    can hold, as the 5 s of the recipe builder and the 100 ms pause are). *)
Fixpoint leastTime (shapes : list Shape) : Z :=
  match shapes with
  | [] => 0
  | waited ms :: rest => Z.max 0 ms + leastTime rest
  | called _ :: rest => leastTime rest
  end.

(** The faults that make [invoke] itself throw. *)
Definition rejects (f : Fault) : bool :=
  match f with
  | ipc_rejects _ => true
  | _ => false
  end.

(** No call of the run will be rejected by the IPC layer. *)
Definition noRejection (w : World) : bool :=
  forallb (fun f => negb (rejects f)) (faults w).

(** What one sensor reads along a stream, with the instants. *)
Definition readingsOf (sensorId : SensorId) (samples : list Sample)
    : list (Timestamp * JS.number) :=
  map (fun sample : Sample => (fst sample, get (snd sample) sensorId)) samples.

(** The [log-data] rows among the calls made, in order. *)
Fixpoint dataRows (calls : list LogCall)
    : list (Timestamp * JS.text * JS.text * bool * bool) :=
  match calls with
  | [] => []
  | log_flicker _ :: rest => dataRows rest
  | log_data timestamp s1 s2 active1 active2 :: rest =>
      (timestamp, s1, s2, active1, active2) :: dataRows rest
  end.

(** A place for each number on a line of integer triples, in the order of
    the numbers: the infinities at the ends, the zeros in the middle, the
    finite numbers by exponent and then by mantissa. *)
Definition rank (x : spec_float) : Z * Z * Z :=
  match x with
  | S754_infinity true => (-2, 0, 0)
  | S754_finite true m e => (-1, - e, - Z.pos m)
  | S754_zero _ => (0, 0, 0)
  | S754_finite false m e => (1, e, Z.pos m)
  | S754_infinity false => (2, 0, 0)
  | S754_nan => (3, 0, 0)
  end.

Definition lexle (a b : Z * Z * Z) : Prop :=
  fst (fst a) < fst (fst b)
  \/ (fst (fst a) = fst (fst b)
      /\ (snd (fst a) < snd (fst b)
          \/ (snd (fst a) = snd (fst b) /\ snd a <= snd b))).

(** [m] is the least of the numbers [window]: it is one of them and it is
    below or equal to each. *)
Definition Least (m : JS.number) (window : list JS.number) : Prop :=
  PrimFloat.is_nan m = false
  /\ In m window
  /\ Forall (fun w => PrimFloat.leb m w = true) window.

(** The least time a step takes when it is carried to its end: its delay,
    if it is one, and the pause of 100 ms. *)
Definition leastStepTime (step : Step) : Z :=
  match step with
  | delay duration => Z.max 0 (duration * 1000) + 100
  | _ => 100
  end.

(** What a step writes to the serial port when its command goes through. *)
Definition wireOf (step : Step) : list string :=
  match step with
  | connectUSB => [("c" ++ String "010"%char EmptyString)%string]
  | disconnectUSB => [("d" ++ String "010"%char EmptyString)%string]
  | sleep => [("s" ++ String "010"%char EmptyString)%string]
  | wake => [("w" ++ String "010"%char EmptyString)%string]
  | _ => []
  end.

(** The result of the last [send-command] that reached its handler, [acc]
    when there is none. *)
Fixpoint lastCommand (acc : option IpcResult) (effects : list Effect)
    : option IpcResult :=
  match effects with
  | [] => acc
  | invoked (send_command _) (Some result) :: rest => lastCommand (Some result) rest
  | _ :: rest => lastCommand acc rest
  end.

(** What the surroundings allow a closed port to answer. *)
Definition refusedWhenClosed (e : Effect) : Prop :=
  match e with
  | invoked (send_command _) result =>
      result = Some (failed "Serial port is not open")
  | invoked start_flicker_detection result =>
      result = Some (failed "Serial port is not connected")
  | _ => True
  end.

(* ------------------------------------------------------------------ *)
(** ** The main process: lines from the serial port *)

(** [line.split(',')]: the pieces between the commas, at least one. *)
Fixpoint split_comma (line : string) : list string :=
  match line with
  | EmptyString => [EmptyString]
  | String c rest =>
      if Ascii.eqb c ","%char then EmptyString :: split_comma rest
      else match split_comma rest with
           | piece :: pieces => String c piece :: pieces
           | [] => [String c EmptyString]
           end
  end.

Fixpoint noComma (s : string) : bool :=
  match s with
  | EmptyString => true
  | String c rest => negb (Ascii.eqb c ","%char) && noComma rest
  end.

(** The callback of [parser.on('data', ...)] for one line, with the window
    in place: the object sent on [sensor-data], if one is sent.
    [Number] is the conversion of a string to a number that
    [.map(Number)] applies to every piece; a missing second piece is
    [undefined], for which [isNaN] holds. *)
Definition onLine (Number : string -> JS.number) (line : string)
    : option (PerSensor JS.number) :=
  match map Number (split_comma line) with
  | reading1 :: reading2 :: _ =>
      if negb (PrimFloat.is_nan reading1) && negb (PrimFloat.is_nan reading2)
      then Some (mkPerSensor reading1 reading2)
      else None
  | _ => None
  end.

(* ------------------------------------------------------------------ *)
(** ** The mount effect: the listeners of the component *)

(** The listener that the mount effect registers on [sensor-data]. The
    effect has no dependencies, so it runs once and registers the
    [handleSensorData] of the first render. The closure of that function
    holds the state values of the first render, [isFlickerDetectionRunning]
    among them; the setters and the two refs are those of the component. *)
Definition mountedListener (timestamp : Timestamp) (data : PerSensor JS.number)
    (a : App) : App * list LogCall :=
  let seen := setIsFlickerDetectionRunning (isFlickerDetectionRunning initialApp) a in
  let '(a1, out) := handleSensorData timestamp data seen in
  (setIsFlickerDetectionRunning (isFlickerDetectionRunning a) a1, out).

Fixpoint listenAll (samples : list Sample) (a : App) : App * list LogCall :=
  match samples with
  | [] => (a, [])
  | (timestamp, data) :: rest =>
      let '(a1, out1) := mountedListener timestamp data a in
      let '(a2, out2) := listenAll rest a1 in
      (a2, out1 ++ out2)
  end.

(** [prev.slice(-n)]: the last [n] elements, all of them when there are
    fewer. *)
Definition slice_last {A} (n : nat) (l : list A) : list A :=
  skipn (List.length l - n) l.

(** The listener on [debug-message]:
    [setDebugMessages(prev => [...prev.slice(-100), message])] *)
Definition onDebugMessage (message : string) (prev : list string) : list string :=
  slice_last 100 prev ++ [message].

Definition onDebugMessages (messages : list string) (prev : list string)
    : list string :=
  fold_left (fun shown message => onDebugMessage message shown) messages prev.


(* ================================================================== *)
(** * Properties *)

(** ** The number layer *)

Example toFixed_20 : JS.toFixed 2 20%float = JS.Str "20.00".
Proof. vm_compute. reflexivity. Qed.

Example toFixed_80 : JS.toFixed 3 80%float = JS.Str "80.000".
Proof. vm_compute. reflexivity. Qed.

Example toFixed_small : JS.toFixed 2 (-0.001953125)%float = JS.Str "-0.00".
Proof. vm_compute. reflexivity. Qed.

Example toFixed_half_up : JS.toFixed 0 2.5%float = JS.Str "3".
Proof. vm_compute. reflexivity. Qed.

Example toFixed_below_half :
  JS.toFixed 2 0x1.0147ae147ae14p+0%float = JS.Str "1.00".
Proof. vm_compute. reflexivity. Qed.

(** ** [handleSensorData], sensor by sensor *)

Lemma SensorId_eqb_refl (s : SensorId) : SensorId_eqb s s = true.
Proof. destruct s; reflexivity. Qed.

Lemma SensorId_eqb_neq (s s' : SensorId) : s <> s' -> SensorId_eqb s s' = false.
Proof. destruct s, s'; simpl; congruence. Qed.

Lemma get_set_same {A} (o : PerSensor A) (k : SensorId) (v : A) :
  get (set o k v) k = v.
Proof. destruct k; reflexivity. Qed.

Lemma get_set_other {A} (o : PerSensor A) (k k' : SensorId) (v : A) :
  k <> k' -> get (set o k v) k' = get o k'.
Proof. destruct k, k'; simpl; congruence. Qed.

Lemma flickersOf_app (s : SensorId) (l1 l2 : list LogCall) :
  flickersOf s (l1 ++ l2) = flickersOf s l1 ++ flickersOf s l2.
Proof.
  induction l1 as [|c l1 IH]; simpl; [reflexivity|].
  destruct c as [fd|]; [|exact IH].
  destruct (SensorId_eqb (FlickerData.sensor fd) s); simpl; now rewrite IH.
Qed.

(** The callback for [sensorId] acts on the cells of [sensorId] as
    [stepChannel] says, and logs the flicker that ended. *)
Lemma processSensor_view (timestamp : Timestamp) (data : PerSensor JS.number)
    (sensorId : SensorId) (a : App) :
  view sensorId (fst (processSensor timestamp data sensorId a))
    = fst (stepChannel timestamp (get data sensorId) (view sensorId a))
  /\ snd (processSensor timestamp data sensorId a)
    = map (fun f => log_flicker (flickerDataOf sensorId timestamp f))
          (snd (stepChannel timestamp (get data sensorId) (view sensorId a))).
Proof.
  unfold processSensor, view, stepChannel.
  destruct (get (lastValues a) sensorId) as [lastValue|] eqn:Hlast; simpl.
  2:{ rewrite get_set_same. auto. }
  unfold checkStart.
  destruct (startsFlicker (percentChangeOf lastValue (get data sensorId))
                          (get (activeFlickers a) sensorId)) eqn:Hstart.
  - unfold updateActive; simpl. rewrite get_set_same.
    cbn [initialValue updateFlicker];
    match goal with |- context [PrimFloat.ltb ?x ?y] => destruct (PrimFloat.ltb x y) end;
      simpl; rewrite !get_set_same; auto.
  - unfold updateActive.
    destruct (get (activeFlickers a) sensorId) as [flicker0|] eqn:Hact; simpl.
    + cbn [initialValue updateFlicker];
      match goal with |- context [PrimFloat.ltb ?x ?y] => destruct (PrimFloat.ltb x y) end;
        simpl; rewrite !get_set_same; auto.
    + rewrite get_set_same, Hact. auto.
Qed.

(** It leaves the cells of the other sensor alone. *)
Lemma processSensor_other (timestamp : Timestamp) (data : PerSensor JS.number)
    (sensorId other : SensorId) (a : App) :
  sensorId <> other ->
  view other (fst (processSensor timestamp data sensorId a)) = view other a
  /\ flickersOf other (snd (processSensor timestamp data sensorId a)) = [].
Proof.
  intros Hne. unfold processSensor, view.
  destruct (get (lastValues a) sensorId) as [lastValue|]; simpl.
  2:{ rewrite get_set_other by assumption. auto. }
  unfold checkStart.
  destruct (startsFlicker _ _); unfold updateActive; simpl.
  - rewrite get_set_same.
    cbn [initialValue updateFlicker];
    match goal with |- context [PrimFloat.ltb ?x ?y] => destruct (PrimFloat.ltb x y) end;
      simpl; rewrite ?SensorId_eqb_neq by assumption;
      rewrite !get_set_other by assumption; auto.
  - destruct (get (activeFlickers a) sensorId) as [flicker0|]; simpl.
    + cbn [initialValue updateFlicker];
      match goal with |- context [PrimFloat.ltb ?x ?y] => destruct (PrimFloat.ltb x y) end;
        simpl; rewrite ?SensorId_eqb_neq by assumption;
        rewrite !get_set_other by assumption; auto.
    + rewrite !get_set_other by assumption; auto.
Qed.

Lemma processSensor_running (timestamp : Timestamp) (data : PerSensor JS.number)
    (sensorId : SensorId) (a : App) :
  isFlickerDetectionRunning (fst (processSensor timestamp data sensorId a))
    = isFlickerDetectionRunning a.
Proof.
  unfold processSensor.
  destruct (get (lastValues a) sensorId) as [lastValue|]; simpl; [|reflexivity].
  unfold checkStart, updateActive.
  destruct (startsFlicker _ _); simpl.
  - rewrite get_set_same.
    cbn [initialValue updateFlicker];
    match goal with |- context [PrimFloat.ltb ?x ?y] => destruct (PrimFloat.ltb x y) end;
      reflexivity.
  - destruct (get (activeFlickers a) sensorId); simpl; [|reflexivity].
    cbn [initialValue updateFlicker];
    match goal with |- context [PrimFloat.ltb ?x ?y] => destruct (PrimFloat.ltb x y) end;
      reflexivity.
Qed.

Lemma flickersOf_own (s : SensorId) (timestamp : Timestamp) (fs : list Flicker) :
  flickersOf s (map (fun f => log_flicker (flickerDataOf s timestamp f)) fs)
    = map (flickerDataOf s timestamp) fs.
Proof.
  induction fs as [|f fs IH]; simpl; [reflexivity|].
  now rewrite SensorId_eqb_refl, IH.
Qed.

Lemma view_setSensorData (s : SensorId) (d : PerSensor JS.number) (a : App) :
  view s (setSensorData d a) = view s a.
Proof. reflexivity. Qed.

(** While detection runs, one [sensor-data] event acts on each sensor as
    [stepChannel] says, whatever the other sensor reads. *)
Lemma handleSensorData_view (timestamp : Timestamp) (data : PerSensor JS.number)
    (a : App) (s : SensorId) :
  isFlickerDetectionRunning a = true ->
  view s (fst (handleSensorData timestamp data a))
    = fst (stepChannel timestamp (get data s) (view s a))
  /\ flickersOf s (snd (handleSensorData timestamp data a))
    = map (flickerDataOf s timestamp)
          (snd (stepChannel timestamp (get data s) (view s a))).
Proof.
  intros Hrun. unfold handleSensorData.
  change (isFlickerDetectionRunning (setSensorData data a))
    with (isFlickerDetectionRunning a).
  rewrite Hrun.
  destruct (processSensor timestamp data sensor1 (setSensorData data a))
    as [a1 out1] eqn:E1.
  destruct (processSensor timestamp data sensor2 a1) as [a2 out2] eqn:E2.
  simpl fst; simpl snd.
  rewrite !flickersOf_app. simpl flickersOf at 3. rewrite app_nil_r.
  assert (Ha1 : a1 = fst (processSensor timestamp data sensor1 (setSensorData data a)))
    by now rewrite E1.
  assert (Ho1 : out1 = snd (processSensor timestamp data sensor1 (setSensorData data a)))
    by now rewrite E1.
  assert (Ha2 : a2 = fst (processSensor timestamp data sensor2 a1)) by now rewrite E2.
  assert (Ho2 : out2 = snd (processSensor timestamp data sensor2 a1)) by now rewrite E2.
  destruct s.
  - destruct (processSensor_view timestamp data sensor1 (setSensorData data a)) as [V1 L1].
    destruct (processSensor_other timestamp data sensor2 sensor1 a1) as [V2 L2];
      [discriminate|].
    rewrite Ha2, V2, Ho2, L2, app_nil_r, Ha1, V1, Ho1, L1, flickersOf_own.
    now rewrite view_setSensorData.
  - destruct (processSensor_view timestamp data sensor2 a1) as [V2 L2].
    destruct (processSensor_other timestamp data sensor1 sensor2 (setSensorData data a))
      as [V1 L1]; [discriminate|].
    rewrite Ha2, V2, Ho2, L2, flickersOf_own, Ho1, L1, Ha1, V1.
    now rewrite view_setSensorData.
Qed.

(** While detection does not run, an event changes no cell and logs nothing. *)
Lemma handleSensorData_idle (timestamp : Timestamp) (data : PerSensor JS.number)
    (a : App) (s : SensorId) :
  isFlickerDetectionRunning a = false ->
  view s (fst (handleSensorData timestamp data a)) = view s a
  /\ snd (handleSensorData timestamp data a) = [].
Proof.
  intros Hrun. unfold handleSensorData.
  change (isFlickerDetectionRunning (setSensorData data a))
    with (isFlickerDetectionRunning a).
  now rewrite Hrun.
Qed.

Lemma handleSensorData_running (timestamp : Timestamp) (data : PerSensor JS.number)
    (a : App) :
  isFlickerDetectionRunning (fst (handleSensorData timestamp data a))
    = isFlickerDetectionRunning a.
Proof.
  unfold handleSensorData.
  change (isFlickerDetectionRunning (setSensorData data a))
    with (isFlickerDetectionRunning a).
  destruct (isFlickerDetectionRunning a) eqn:Hrun; [|exact Hrun].
  destruct (processSensor timestamp data sensor1 (setSensorData data a))
    as [a1 out1] eqn:E1.
  destruct (processSensor timestamp data sensor2 a1) as [a2 out2] eqn:E2.
  simpl.
  replace a2 with (fst (processSensor timestamp data sensor2 a1)) by now rewrite E2.
  rewrite processSensor_running.
  replace a1 with (fst (processSensor timestamp data sensor1 (setSensorData data a)))
    by now rewrite E1.
  rewrite processSensor_running. exact Hrun.
Qed.

Lemma handleAll_running (samples : list Sample) (a : App) :
  isFlickerDetectionRunning (fst (handleAll samples a)) = isFlickerDetectionRunning a.
Proof.
  revert a. induction samples as [|[timestamp data] rest IH]; intros a; simpl;
    [reflexivity|].
  destruct (handleSensorData timestamp data a) as [a1 out1] eqn:E1.
  destruct (handleAll rest a1) as [a2 out2] eqn:E2. simpl.
  replace a2 with (fst (handleAll rest a1)) by now rewrite E2.
  rewrite IH.
  replace a1 with (fst (handleSensorData timestamp data a)) by now rewrite E1.
  apply handleSensorData_running.
Qed.

Lemma handleAll_view (samples : list Sample) (a : App) (s : SensorId) :
  isFlickerDetectionRunning a = true ->
  view s (fst (handleAll samples a)) = fst (runChannel s samples (view s a))
  /\ flickersOf s (snd (handleAll samples a)) = snd (runChannel s samples (view s a)).
Proof.
  revert a. induction samples as [|[timestamp data] rest IH]; intros a Hrun;
    cbn [handleAll runChannel]; [auto|].
  destruct (handleSensorData_view timestamp data a s Hrun) as [V L].
  destruct (handleSensorData timestamp data a) as [a1 out1] eqn:E1.
  cbn [fst snd] in V, L.
  assert (Hrun1 : isFlickerDetectionRunning a1 = true).
  { replace a1 with (fst (handleSensorData timestamp data a)) by now rewrite E1.
    now rewrite handleSensorData_running. }
  destruct (IH a1 Hrun1) as [V' L'].
  destruct (handleAll rest a1) as [a2 out2] eqn:E2. cbn [fst snd] in V', L'.
  rewrite V in V', L'.
  destruct (stepChannel timestamp (get data s) (view s a)) as [c1 ended].
  cbn [fst snd] in V', L', L |- *.
  destruct (runChannel s rest c1) as [c2 out]. cbn [fst snd] in *.
  now rewrite flickersOf_app, L, L'.
Qed.

Lemma handleAll_app (l1 l2 : list Sample) (a : App) :
  handleAll (l1 ++ l2) a
    = (fst (handleAll l2 (fst (handleAll l1 a))),
       snd (handleAll l1 a) ++ snd (handleAll l2 (fst (handleAll l1 a)))).
Proof.
  revert a. induction l1 as [|[timestamp data] rest IH]; intros a; simpl.
  - now destruct (handleAll l2 a).
  - destruct (handleSensorData timestamp data a) as [a1 out1].
    rewrite IH.
    destruct (handleAll rest a1) as [a2 out2]. simpl.
    now rewrite app_assoc.
Qed.

(** The state in which a detection session starts: [toggleFlickerDetection]
    has set [isFlickerDetectionRunning] and called [resetFlickerDetection]. *)
Lemma view_session_start (a : App) (s : SensorId) :
  view s (resetFlickerDetection (setIsFlickerDetectionRunning true a)) = (None, None, 0).
Proof. destruct s; reflexivity. Qed.

Lemma view_eq (s : SensorId) (a : App) (last : option JS.number)
    (active : option Flicker) (count : Z) :
  view s a = (last, active, count) ->
  get (lastValues a) s = last /\ get (activeFlickers a) s = active
  /\ get (flickerCount a) s = count.
Proof. unfold view. intros H. inversion H. auto. Qed.

(** ** Scenario A *)

Lemma scenario_A_first (t : Timestamp) :
  stepChannel t 100%float (None, None, 0) = ((Some 100%float, None, 0), []).
Proof. reflexivity. Qed.

Lemma scenario_A_steady (t : Timestamp) :
  stepChannel t 100%float (Some 100%float, None, 0) = ((Some 100%float, None, 0), []).
Proof. vm_compute. reflexivity. Qed.

Lemma scenario_A_dip (t : Timestamp) :
  stepChannel t 80%float (Some 100%float, None, 0)
    = ((Some 80%float, Some (mkFlicker t 100%float 80%float 20%float), 0), []).
Proof. vm_compute. reflexivity. Qed.

Lemma scenario_A_back (t t' : Timestamp) :
  stepChannel t' 100%float
      (Some 80%float, Some (mkFlicker t 100%float 80%float 20%float), 0)
    = ((Some 100%float, None, 1), [mkFlicker t 100%float 80%float 25%float]).
Proof. vm_compute. reflexivity. Qed.

(** C1, as the code has it. From a freshly reset state with detection
    running, the sensor1 readings 100, 100, 80, 100 (whatever sensor2 reads
    and whenever they arrive) do this: the first only records the last
    value; the third opens a flicker with [initialValue = 100],
    [minValue = 80] and [maxPercentChange = 20]; the fourth ends it and logs
    exactly one flicker row for sensor1, whose [minimumValue] is "80.000"
    and whose [percentChange] is "25.00": on the closing reading the change
    from the previous reading, (80 - 100) / 80, is 25 percent, and
    [maxPercentChange] is raised to it before the row is built. *)
Theorem scenario_A (a : App) (t1 t2 t3 t4 : Timestamp) (x1 x2 x3 x4 : JS.number) :
  let a0 := resetFlickerDetection (setIsFlickerDetectionRunning true a) in
  let r1 := handleSensorData t1 (mkPerSensor 100%float x1) a0 in
  let r2 := handleSensorData t2 (mkPerSensor 100%float x2) (fst r1) in
  let r3 := handleSensorData t3 (mkPerSensor 80%float x3) (fst r2) in
  let r4 := handleSensorData t4 (mkPerSensor 100%float x4) (fst r3) in
  (get (lastValues (fst r1)) sensor1 = Some 100%float
   /\ get (activeFlickers (fst r1)) sensor1 = None
   /\ flickersOf sensor1 (snd r1) = [])
  /\ (get (activeFlickers (fst r2)) sensor1 = None
      /\ flickersOf sensor1 (snd r2) = [])
  /\ (exists f, get (activeFlickers (fst r3)) sensor1 = Some f
                /\ startTime f = t3
                /\ initialValue f = 100%float
                /\ minValue f = 80%float
                /\ maxPercentChange f = 20%float
                /\ flickersOf sensor1 (snd r3) = [])
  /\ (exists fd, flickersOf sensor1 (snd r4) = [fd]
                 /\ FlickerData.percentChange fd = JS.Str "25.00"
                 /\ FlickerData.minimumValue fd = JS.Str "80.000"
                 /\ FlickerData.initialValue fd = JS.Str "100.000"
                 /\ get (activeFlickers (fst r4)) sensor1 = None
                 /\ get (flickerCount (fst r4)) sensor1 = 1).
Proof.
  intros a0 r1 r2 r3 r4.
  assert (H0 : isFlickerDetectionRunning a0 = true) by reflexivity.
  assert (H1 : isFlickerDetectionRunning (fst r1) = true)
    by (unfold r1; now rewrite handleSensorData_running).
  assert (H2 : isFlickerDetectionRunning (fst r2) = true)
    by (unfold r2; now rewrite handleSensorData_running).
  assert (H3 : isFlickerDetectionRunning (fst r3) = true)
    by (unfold r3; now rewrite handleSensorData_running).
  destruct (handleSensorData_view t1 (mkPerSensor 100%float x1) a0 sensor1 H0) as [V1 L1].
  destruct (handleSensorData_view t2 (mkPerSensor 100%float x2) (fst r1) sensor1 H1)
    as [V2 L2].
  destruct (handleSensorData_view t3 (mkPerSensor 80%float x3) (fst r2) sensor1 H2)
    as [V3 L3].
  destruct (handleSensorData_view t4 (mkPerSensor 100%float x4) (fst r3) sensor1 H3)
    as [V4 L4].
  fold r1 in V1, L1, V2, L2. fold r2 in V2, L2, V3, L3.
  fold r3 in V3, L3, V4, L4. fold r4 in V4, L4.
  cbn [get at_sensor1] in V1, L1, V2, L2, V3, L3, V4, L4.
  rewrite (view_session_start a sensor1 : view sensor1 a0 = _), scenario_A_first in V1, L1.
  cbn [fst snd map] in V1, L1.
  rewrite V1, scenario_A_steady in V2, L2. cbn [fst snd map] in V2, L2.
  rewrite V2, scenario_A_dip in V3, L3. cbn [fst snd map] in V3, L3.
  rewrite V3, scenario_A_back in V4, L4. cbn [fst snd map] in V4, L4.
  clearbody r1 r2 r3 r4. clear H0 H1 H2 H3. clearbody a0.
  apply view_eq in V1, V2, V3, V4.
  destruct V1 as [E1a [E1b E1c]], V2 as [E2a [E2b E2c]],
           V3 as [E3a [E3b E3c]], V4 as [E4a [E4b E4c]].
  split; [now repeat split|]. split; [now split|]. split.
  - eexists. split; [exact E3b|]. now repeat split.
  - eexists. split; [exact L4|].
    unfold flickerDataOf.
    cbn [FlickerData.percentChange FlickerData.minimumValue FlickerData.initialValue
         maxPercentChange minValue initialValue].
    repeat split; try assumption; vm_compute; reflexivity.
Qed.

(** The sensor1 readings of Scenario A, with sensor2 at rest and one reading
    every 100 ms. *)
Lemma scenario_A_percentChange_is_not_20 :
  let a0 := resetFlickerDetection (setIsFlickerDetectionRunning true initialApp) in
  let samples :=
    [(0, mkPerSensor 100%float 0%float); (100, mkPerSensor 100%float 0%float);
     (200, mkPerSensor 80%float 0%float); (300, mkPerSensor 100%float 0%float)] in
  ~ (exists fd, flickersOf sensor1 (snd (handleAll samples a0)) = [fd]
                /\ FlickerData.percentChange fd = JS.Str "20.00"
                /\ FlickerData.minimumValue fd = JS.Str "80.000").
Proof.
  intros a0 samples [fd [Hfd [Hpc _]]].
  vm_compute in Hfd. inversion Hfd as [E]. subst fd.
  discriminate Hpc.
Qed.

(** ** Arithmetic of the two percentages *)

Section Magnitudes.

Variables prec emax : Z.

Lemma abs_binary_round_aux (s : bool) (m e : Z) (l : location) :
  SFabs (binary_round_aux prec emax s m e l) = binary_round_aux prec emax false m e l.
Proof.
  unfold binary_round_aux.
  destruct (shr_fexp prec emax m e l) as [mrs' e'].
  destruct (shr_fexp prec emax _ e' loc_Exact) as [mrs'' e''].
  destruct (shr_m mrs''); [reflexivity| |reflexivity].
  now destruct (Z.leb e'' (Z.sub emax prec)).
Qed.

Lemma abs_binary_round (s : bool) (m : positive) (e : Z) :
  SFabs (binary_round prec emax s m e) = binary_round prec emax false m e.
Proof.
  unfold binary_round.
  destruct (shl_align m e _) as [mz ez]. apply abs_binary_round_aux.
Qed.

Lemma abs_binary_normalize_opp (m e : Z) :
  SFabs (binary_normalize prec emax (- m) e false)
    = SFabs (binary_normalize prec emax m e false).
Proof.
  destruct m; simpl; [reflexivity| |]; now rewrite !abs_binary_round.
Qed.

(** The magnitude of a product is the product of the magnitudes. *)
Lemma SFabs_mul (x y : spec_float) :
  SFabs (SFmul prec emax x y) = SFmul prec emax (SFabs x) (SFabs y).
Proof.
  destruct x as [sx|sx| |sx mx ex], y as [sy|sy| |sy my ey]; simpl;
    try reflexivity.
  apply abs_binary_round_aux.
Qed.

(** The magnitude of a quotient is the quotient of the magnitudes. *)
Lemma SFabs_div (x y : spec_float) :
  SFabs (SFdiv prec emax x y) = SFdiv prec emax (SFabs x) (SFabs y).
Proof.
  destruct x as [sx|sx| |sx mx ex], y as [sy|sy| |sy my ey]; simpl;
    try reflexivity.
  destruct (SFdiv_core_binary prec emax (Z.pos mx) ex (Z.pos my) ey) as [[mz ez] lz].
  apply abs_binary_round_aux.
Qed.

(** [x - y] and [y - x] have the same magnitude. *)
Lemma SFabs_sub_swap (x y : spec_float) :
  SFabs (SFsub prec emax x y) = SFabs (SFsub prec emax y x).
Proof.
  destruct x as [sx|sx| |sx mx ex], y as [sy|sy| |sy my ey]; simpl;
    try reflexivity; try (destruct sx, sy; reflexivity).
  rewrite (Z.min_comm ey ex).
  rewrite <- abs_binary_normalize_opp. f_equal. f_equal. lia.
Qed.

End Magnitudes.

Lemma SFcompare_antisym (x y : spec_float) :
  SFcompare y x = option_map CompOpp (SFcompare x y).
Proof.
  destruct x as [sx|sx| |sx mx ex], y as [sy|sy| |sy my ey]; simpl;
    try reflexivity;
    try (destruct sx; reflexivity); try (destruct sy; reflexivity);
    try (destruct sx, sy; reflexivity).
  destruct sx, sy; simpl; try reflexivity;
    rewrite (Z.compare_antisym ex ey);
    destruct (ex ?= ey)%Z eqn:E; simpl; try reflexivity;
    change (Pos.compare_cont Eq my mx) with (Pos.compare my mx);
    change (Pos.compare_cont Eq mx my) with (Pos.compare mx my);
    rewrite (Pos.compare_antisym mx my); now destruct (mx ?= my)%positive.
Qed.

(** [a < b] and [b < a] never hold together. *)
Lemma ltb_asym (a b : float) : PrimFloat.ltb a b = true -> PrimFloat.ltb b a = false.
Proof.
  rewrite !ltb_spec. unfold SFltb.
  rewrite (SFcompare_antisym (Prim2SF a) (Prim2SF b)).
  destruct (SFcompare (Prim2SF a) (Prim2SF b)) as [[| |]|]; simpl; congruence.
Qed.

(** On the reading that opens a flicker, the percentage tested for its end
    is the magnitude of the percentage that opened it. *)
Lemma returnPercentChange_at_start (lastValue currentValue : JS.number) :
  returnPercentChangeOf currentValue lastValue
    = JS.Math_abs (percentChangeOf lastValue currentValue).
Proof.
  apply Prim2SF_inj.
  unfold returnPercentChangeOf, percentChangeOf, JS.Math_abs.
  rewrite abs_spec, !mul_spec, abs_spec, !div_spec, !sub_spec.
  unfold SF64mul, SF64div, SF64sub.
  rewrite SFabs_mul, !SFabs_div.
  rewrite (SFabs_sub_swap prec emax (Prim2SF currentValue) (Prim2SF lastValue)).
  f_equal.
Qed.

(** ** A flicker does not end on the reading that starts it *)

Lemma startsFlicker_true (percentChange : JS.number) (active : option Flicker) :
  startsFlicker percentChange active = true ->
  PrimFloat.ltb FLICKER_THRESHOLD (JS.Math_abs percentChange) = true /\ active = None.
Proof.
  unfold startsFlicker, JS.gtb. intros H. apply andb_prop in H. destruct H as [H1 H2].
  split; [exact H1|]. now destruct active.
Qed.

Lemma stepChannel_opening (timestamp : Timestamp) (v p : JS.number)
    (active : option Flicker) (count : Z) :
  startsFlicker (percentChangeOf p v) active = true ->
  stepChannel timestamp v (Some p, active, count)
    = ((Some v,
        Some (updateFlicker v (percentChangeOf p v)
                (mkFlicker timestamp p v (JS.Math_abs (percentChangeOf p v)))),
        count), []).
Proof.
  intros H. unfold stepChannel. rewrite H.
  cbn [initialValue updateFlicker].
  rewrite returnPercentChange_at_start.
  apply startsFlicker_true in H. destruct H as [H _].
  now rewrite (ltb_asym _ _ H).
Qed.

Lemma stepChannel_carried (timestamp : Timestamp) (v p : JS.number)
    (flicker0 : Flicker) (count : Z) :
  stepChannel timestamp v (Some p, Some flicker0, count)
    = let flicker := updateFlicker v (percentChangeOf p v) flicker0 in
      if PrimFloat.ltb (returnPercentChangeOf v (initialValue flicker0)) FLICKER_THRESHOLD
      then ((Some v, None, count + 1), [flicker])
      else ((Some v, Some flicker, count), []).
Proof.
  unfold stepChannel, startsFlicker. now rewrite andb_false_r.
Qed.

Lemma stepChannel_quiet (timestamp : Timestamp) (v p : JS.number) (count : Z) :
  startsFlicker (percentChangeOf p v) None = false ->
  stepChannel timestamp v (Some p, None, count) = ((Some v, None, count), []).
Proof. intros H. unfold stepChannel. now rewrite H. Qed.

(** C10. A flicker never ends on the reading that starts it. When a reading
    opens a flicker (for every reading, zero or not), the percentage tested
    for the end of the flicker equals the magnitude of the percentage that
    opened it, which is above the threshold: no row is logged for the sensor
    on that reading and the flicker, started at this very instant from the
    previous value, is still in progress afterwards. *)
Theorem flicker_stays_open_where_it_starts (timestamp : Timestamp)
    (data : PerSensor JS.number) (a : App) (s : SensorId) :
  isFlickerDetectionRunning a = true ->
  opensAt data a s = true ->
  let r := handleSensorData timestamp data a in
  (exists p,
      get (lastValues a) s = Some p
      /\ returnPercentChangeOf (get data s) p
         = JS.Math_abs (percentChangeOf p (get data s))
      /\ PrimFloat.ltb (returnPercentChangeOf (get data s) p) FLICKER_THRESHOLD = false
      /\ exists f, get (activeFlickers (fst r)) s = Some f
                   /\ startTime f = timestamp /\ initialValue f = p)
  /\ flickersOf s (snd r) = [].
Proof.
  intros Hrun Hopen r.
  destruct (handleSensorData_view timestamp data a s Hrun) as [V L].
  fold r in V, L. clearbody r.
  unfold opensAt in Hopen. unfold view in V, L.
  destruct (get (lastValues a) s) as [p|] eqn:Hlast; [|discriminate].
  rewrite (stepChannel_opening _ _ _ _ _ Hopen) in V, L.
  cbn [fst snd map] in V, L. apply view_eq in V. destruct V as [_ [Vact _]].
  split; [|exact L].
  exists p. split; [reflexivity|].
  split; [apply returnPercentChange_at_start|].
  split.
  - rewrite returnPercentChange_at_start.
    apply startsFlicker_true in Hopen. destruct Hopen as [H _].
    now apply ltb_asym.
  - eexists. split; [exact Vact|]. split; reflexivity.
Qed.

(** A state in the middle of a session: sensor1 last read 100, sensor2 0. *)
Lemma flicker_stays_open_where_it_starts_witness :
  let a := mkApp true "Flicker Detection Running" (mkPerSensor 100%float 0%float) []
                 false true (mkPerSensor 0 0)
                 (mkPerSensor (Some 100%float) (Some 0%float)) (mkPerSensor None None) in
  let data := mkPerSensor 80%float 0%float in
  isFlickerDetectionRunning a = true
  /\ opensAt data a sensor1 = true
  /\ flickersOf sensor1 (snd (handleSensorData 1000 data a)) = [].
Proof.
  intros a data.
  split; [reflexivity|]. split; [vm_compute; reflexivity|].
  apply (flicker_stays_open_where_it_starts 1000 data a sensor1);
    vm_compute; reflexivity.
Defined.

(** Hence every row logged for a sensor comes from a flicker that was already
    in progress before the reading: it started on a strictly earlier one. *)
Lemma flickers_end_later (timestamp : Timestamp) (data : PerSensor JS.number)
    (a : App) (s : SensorId) (fd : FlickerData.t) :
  In fd (flickersOf s (snd (handleSensorData timestamp data a))) ->
  exists f, get (activeFlickers a) s = Some f
            /\ FlickerData.startTime fd = startTime f.
Proof.
  intros Hin.
  destruct (isFlickerDetectionRunning a) eqn:Hrun.
  2:{ destruct (handleSensorData_idle timestamp data a s Hrun) as [_ E].
      rewrite E in Hin. destruct Hin. }
  destruct (handleSensorData_view timestamp data a s Hrun) as [_ L].
  rewrite L in Hin. clear L. unfold view in Hin.
  destruct (get (lastValues a) s) as [p|] eqn:Hlast; [|destruct Hin].
  destruct (get (activeFlickers a) s) as [f0|] eqn:Hact.
  - rewrite stepChannel_carried in Hin. cbv zeta in Hin.
    destruct (PrimFloat.ltb _ _) in Hin; cbn [snd map In] in Hin; [|destruct Hin].
    destruct Hin as [E|[]]. subst fd. exists f0. split; reflexivity.
  - destruct (startsFlicker (percentChangeOf p (get data s)) None) eqn:Hs.
    + rewrite (stepChannel_opening _ _ _ _ _ Hs) in Hin. destruct Hin.
    + rewrite (stepChannel_quiet _ _ _ _ Hs) in Hin. destruct Hin.
Qed.

(** ** A previous reading of zero *)

Lemma Prim2SF_100 : Prim2SF 100%float = S754_finite false 7036874417766400 (-46).
Proof. reflexivity. Qed.

Lemma eqb_zero (p : float) :
  PrimFloat.eqb p 0%float = true -> exists s, Prim2SF p = S754_zero s.
Proof.
  rewrite eqb_spec. change (Prim2SF 0%float) with (S754_zero false).
  unfold SFeqb. destruct (Prim2SF p) as [s|s| |s m e]; simpl.
  - intros _. now exists s.
  - destruct s; discriminate.
  - discriminate.
  - destruct s; discriminate.
Qed.

Lemma is_nan_spec (v : float) :
  PrimFloat.is_nan v = true <-> Prim2SF v = S754_nan.
Proof.
  unfold PrimFloat.is_nan. rewrite eqb_spec. unfold SFeqb.
  destruct (Prim2SF v) as [s|s| |s m e]; simpl.
  - split; discriminate.
  - destruct s; split; discriminate.
  - split; reflexivity.
  - destruct s; rewrite Z.compare_refl;
      change (PosDef.Pos.compare_cont Eq m m) with (Pos.compare m m);
      rewrite Pos.compare_refl; split; discriminate.
Qed.

(** With a previous reading of zero and a current reading of zero (or no
    number), the percentage is 0 / 0: NaN. *)
Lemma percentChange_zero_zero (p v : float) :
  PrimFloat.eqb p 0%float = true ->
  PrimFloat.eqb v 0%float || PrimFloat.is_nan v = true ->
  percentChangeOf p v = PrimFloat.nan.
Proof.
  intros Hp Hv. apply eqb_zero in Hp. destruct Hp as [sp Hp].
  apply Prim2SF_inj. unfold percentChangeOf.
  rewrite mul_spec, div_spec, sub_spec, Hp.
  change (Prim2SF PrimFloat.nan) with S754_nan.
  apply orb_prop in Hv. destruct Hv as [Hv|Hv].
  - apply eqb_zero in Hv. destruct Hv as [sv Hv]. rewrite Hv.
    now destruct sp, sv.
  - apply is_nan_spec in Hv. rewrite Hv. reflexivity.
Qed.

(** With a previous reading of zero and any other current reading, the
    percentage is that reading over zero: an infinity. *)
Lemma percentChange_zero_nonzero (p v : float) :
  PrimFloat.eqb p 0%float = true ->
  PrimFloat.eqb v 0%float || PrimFloat.is_nan v = false ->
  JS.Math_abs (percentChangeOf p v) = PrimFloat.infinity.
Proof.
  intros Hp Hv. apply eqb_zero in Hp. destruct Hp as [sp Hp].
  apply orb_false_elim in Hv. destruct Hv as [Hz Hn].
  apply Prim2SF_inj. unfold percentChangeOf, JS.Math_abs.
  rewrite abs_spec, mul_spec, div_spec, sub_spec, Hp, Prim2SF_100.
  change (Prim2SF PrimFloat.infinity) with (S754_infinity false).
  destruct (Prim2SF v) as [sv|sv| |sv mv ev] eqn:Hv.
  - exfalso. rewrite eqb_spec, Hv in Hz. now destruct sv.
  - reflexivity.
  - exfalso. apply is_nan_spec in Hv. congruence.
  - reflexivity.
Qed.

Lemma ltb_irrefl (v : float) : PrimFloat.ltb v v = false.
Proof.
  destruct (PrimFloat.ltb v v) eqn:E; [|reflexivity].
  pose proof (ltb_asym _ _ E). congruence.
Qed.

Lemma Math_min_same (v : float) : PrimFloat.is_nan v = false -> JS.Math_min v v = v.
Proof.
  intros H. unfold JS.Math_min. rewrite H, ltb_irrefl. simpl.
  now destruct (PrimFloat.classify v).
Qed.

(** C2, as the code has it. With a previous reading of zero nothing is
    skipped and nothing fails: the division is carried out. The reading is
    always recorded as the new last value. When the current reading is zero
    too (or is no number) the percentage is NaN and, if no flicker is in
    progress, none is opened and no row is logged. When the current reading
    is anything else the percentage is infinite and, if no flicker is in
    progress, one is opened with [initialValue] zero and an infinite
    [maxPercentChange]; it is still in progress after the reading. *)
Theorem zero_last_value (timestamp : Timestamp) (data : PerSensor JS.number)
    (a : App) (s : SensorId) (p : JS.number) :
  isFlickerDetectionRunning a = true ->
  get (lastValues a) s = Some p ->
  PrimFloat.eqb p 0%float = true ->
  let v := get data s in
  let r := handleSensorData timestamp data a in
  get (lastValues (fst r)) s = Some v
  /\ (PrimFloat.eqb v 0%float || PrimFloat.is_nan v = true ->
      percentChangeOf p v = PrimFloat.nan
      /\ (get (activeFlickers a) s = None ->
          get (activeFlickers (fst r)) s = None /\ flickersOf s (snd r) = []))
  /\ (PrimFloat.eqb v 0%float || PrimFloat.is_nan v = false ->
      JS.Math_abs (percentChangeOf p v) = PrimFloat.infinity
      /\ (get (activeFlickers a) s = None ->
          get (activeFlickers (fst r)) s
            = Some (mkFlicker timestamp p v PrimFloat.infinity)
          /\ flickersOf s (snd r) = [])).
Proof.
  intros Hrun Hlast Hp v r.
  destruct (handleSensorData_view timestamp data a s Hrun) as [V L].
  fold r in V, L. clearbody r. fold v in V, L.
  unfold view in V, L. rewrite Hlast in V, L.
  split; [|split].
  - unfold stepChannel in V.
    destruct (startsFlicker _ _) in V.
    + destruct (PrimFloat.ltb _ _) in V; apply view_eq in V; tauto.
    + destruct (get (activeFlickers a) s) in V.
      * destruct (PrimFloat.ltb _ _) in V; apply view_eq in V; tauto.
      * apply view_eq in V. tauto.
  - intros Hv. pose proof (percentChange_zero_zero p v Hp Hv) as Hnan.
    split; [exact Hnan|]. intros Hact. rewrite Hact in V, L.
    assert (Hs : startsFlicker (percentChangeOf p v) None = false)
      by (rewrite Hnan; reflexivity).
    rewrite (stepChannel_quiet _ _ _ _ Hs) in V, L.
    apply view_eq in V. cbn [snd map] in L. tauto.
  - intros Hv. pose proof (percentChange_zero_nonzero p v Hp Hv) as Hinf.
    split; [exact Hinf|]. intros Hact. rewrite Hact in V, L.
    assert (Hs : startsFlicker (percentChangeOf p v) None = true)
      by (unfold startsFlicker; rewrite Hinf; reflexivity).
    rewrite (stepChannel_opening _ _ _ _ _ Hs) in V, L.
    apply view_eq in V. cbn [snd map] in L. destruct V as [_ [V _]].
    split; [|exact L]. rewrite V. unfold updateFlicker.
    cbn [startTime initialValue minValue maxPercentChange].
    rewrite Hinf. apply orb_false_elim in Hv. destruct Hv as [_ Hn].
    rewrite (Math_min_same v Hn). reflexivity.
Qed.

(** A session in which sensor1 last read 0, and now reads 0 again. *)
Lemma zero_last_value_witness :
  let a := mkApp true "Flicker Detection Running" (mkPerSensor 0%float 0%float) []
                 false true (mkPerSensor 0 0)
                 (mkPerSensor (Some 0%float) (Some 0%float)) (mkPerSensor None None) in
  let data := mkPerSensor 0%float 0%float in
  isFlickerDetectionRunning a = true
  /\ get (lastValues a) sensor1 = Some 0%float
  /\ PrimFloat.eqb 0%float 0%float = true
  /\ get (lastValues (fst (handleSensorData 1000 data a))) sensor1 = Some 0%float.
Proof.
  intros a data.
  split; [reflexivity|]. split; [reflexivity|]. split; [reflexivity|].
  apply (zero_last_value 1000 data a sensor1 0%float); reflexivity.
Defined.

(** The same session, where sensor1 now reads 5: a flicker is opened. *)
Lemma zero_last_value_opens_a_flicker :
  let a := mkApp true "Flicker Detection Running" (mkPerSensor 0%float 0%float) []
                 false true (mkPerSensor 0 0)
                 (mkPerSensor (Some 0%float) (Some 0%float)) (mkPerSensor None None) in
  let r := handleSensorData 1000 (mkPerSensor 5%float 0%float) a in
  isFlickerDetectionRunning a = true
  /\ get (lastValues a) sensor1 = Some 0%float
  /\ get (activeFlickers a) sensor1 = None
  /\ get (activeFlickers (fst r)) sensor1
     = Some (mkFlicker 1000 0%float 5%float PrimFloat.infinity).
Proof.
  intros a r.
  split; [reflexivity|]. split; [reflexivity|]. split; [reflexivity|].
  vm_compute. reflexivity.
Qed.

(** A flicker whose initial value is zero never ends: the percentage tested
    for its end is infinite or NaN, never below the threshold. *)
Lemma flicker_from_zero_never_ends (v p : JS.number) :
  PrimFloat.eqb p 0%float = true ->
  PrimFloat.ltb (returnPercentChangeOf v p) FLICKER_THRESHOLD = false.
Proof.
  intros Hp. rewrite returnPercentChange_at_start.
  destruct (PrimFloat.eqb v 0%float || PrimFloat.is_nan v) eqn:Hv.
  - now rewrite (percentChange_zero_zero p v Hp Hv).
  - now rewrite (percentChange_zero_nonzero p v Hp Hv).
Qed.

(** ** Reset *)

(** C9. Whatever the state, [resetFlickerDetection] leaves both sensors with
    no last value and no flicker in progress, and both flicker counts at
    zero; it touches nothing else. *)
Theorem reset_restores_initial_state (a : App) :
  lastValues (resetFlickerDetection a) = mkPerSensor None None
  /\ activeFlickers (resetFlickerDetection a) = mkPerSensor None None
  /\ flickerCount (resetFlickerDetection a) = mkPerSensor 0 0
  /\ (forall s, view s (resetFlickerDetection a) = view s initialApp)
  /\ isFlickerDetectionRunning (resetFlickerDetection a) = isFlickerDetectionRunning a
  /\ isRunningRecipe (resetFlickerDetection a) = isRunningRecipe a
  /\ recipe (resetFlickerDetection a) = recipe a
  /\ status (resetFlickerDetection a) = status a
  /\ isConnected (resetFlickerDetection a) = isConnected a
  /\ sensorData (resetFlickerDetection a) = sensorData a.
Proof.
  repeat (split; [reflexivity|]). reflexivity.
Qed.

(** After a reset the detector has forgotten what came before: two sessions
    fed the same readings log the same flickers and end in the same cells. *)
Lemma reset_forgets_history (a a' : App) (samples : list Sample) (s : SensorId) :
  isFlickerDetectionRunning a = true ->
  isFlickerDetectionRunning a' = true ->
  view s (fst (handleAll samples (resetFlickerDetection a)))
    = view s (fst (handleAll samples (resetFlickerDetection a')))
  /\ flickersOf s (snd (handleAll samples (resetFlickerDetection a)))
     = flickersOf s (snd (handleAll samples (resetFlickerDetection a'))).
Proof.
  intros H H'.
  destruct (handleAll_view samples (resetFlickerDetection a) s H) as [V L].
  destruct (handleAll_view samples (resetFlickerDetection a') s H') as [V' L'].
  rewrite V, V', L, L'.
  assert (E : view s (resetFlickerDetection a) = view s (resetFlickerDetection a'))
    by (destruct s; reflexivity).
  now rewrite E.
Qed.

(** ** Counting *)

Lemma stepChannel_count (timestamp : Timestamp) (v : JS.number) (c : Channel1) :
  snd (fst (stepChannel timestamp v c))
    = snd c + Z.of_nat (List.length (snd (stepChannel timestamp v c)))
  /\ (List.length (snd (stepChannel timestamp v c)) <= 1)%nat.
Proof.
  destruct c as [[last active] count]. unfold stepChannel.
  destruct last as [p|]; [|simpl; lia].
  destruct (startsFlicker _ _).
  - destruct (PrimFloat.ltb _ _); simpl; lia.
  - destruct active as [f0|]; [|simpl; lia].
    destruct (PrimFloat.ltb _ _); simpl; lia.
Qed.

(** One event raises the count of a sensor by the number of rows it logs for
    that sensor, which is none or one. *)
Lemma handleSensorData_count (timestamp : Timestamp) (data : PerSensor JS.number)
    (a : App) (s : SensorId) :
  get (flickerCount (fst (handleSensorData timestamp data a))) s
    = get (flickerCount a) s
      + Z.of_nat (List.length (flickersOf s (snd (handleSensorData timestamp data a))))
  /\ (List.length (flickersOf s (snd (handleSensorData timestamp data a))) <= 1)%nat.
Proof.
  destruct (isFlickerDetectionRunning a) eqn:Hrun.
  - destruct (handleSensorData_view timestamp data a s Hrun) as [V L].
    destruct (stepChannel_count timestamp (get data s) (view s a)) as [C B].
    rewrite L, length_map. rewrite <- V in C. split; [exact C|exact B].
  - destruct (handleSensorData_idle timestamp data a s Hrun) as [V L].
    rewrite L. simpl. split; [|lia].
    unfold view in V. inversion V as [[E1 E2 E3]]. rewrite E3. lia.
Qed.

Lemma handleAll_count (samples : list Sample) (a : App) (s : SensorId) :
  get (flickerCount (fst (handleAll samples a))) s
    = get (flickerCount a) s
      + Z.of_nat (List.length (flickersOf s (snd (handleAll samples a)))).
Proof.
  revert a. induction samples as [|[timestamp data] rest IH]; intros a;
    cbn [handleAll]; [simpl; lia|].
  destruct (handleSensorData_count timestamp data a s) as [C _].
  destruct (handleSensorData timestamp data a) as [a1 out1].
  specialize (IH a1).
  destruct (handleAll rest a1) as [a2 out2].
  cbn [fst snd] in *. rewrite flickersOf_app, length_app, IH, C. lia.
Qed.

(** C5. After a reset and any stream of readings, the flicker count of each
    sensor is exactly the number of flicker rows logged for it since the
    reset. Each event adds to the count the number of rows it logs for the
    sensor (none or one), so the count never goes down while readings are
    handled; a reset puts it at zero. *)
Theorem flickerCount_counts_ended_flickers (a : App) (samples : list Sample)
    (s : SensorId) :
  let r := handleAll samples (resetFlickerDetection a) in
  get (flickerCount (fst r)) s = Z.of_nat (List.length (flickersOf s (snd r)))
  /\ get (flickerCount (resetFlickerDetection a)) s = 0
  /\ (forall a' timestamp data,
        let r' := handleSensorData timestamp data a' in
        get (flickerCount (fst r')) s
          = get (flickerCount a') s + Z.of_nat (List.length (flickersOf s (snd r')))
        /\ (List.length (flickersOf s (snd r')) <= 1)%nat
        /\ get (flickerCount a') s <= get (flickerCount (fst r')) s).
Proof.
  intros r. split; [|split].
  - unfold r. rewrite handleAll_count. destruct s; simpl; lia.
  - destruct s; reflexivity.
  - intros a' timestamp data r'.
    destruct (handleSensorData_count timestamp data a' s) as [C B].
    fold r' in C, B. repeat split; [exact C|exact B|lia].
Qed.

(** ** One flicker in progress per sensor *)

Lemma stepChannel_balance (timestamp : Timestamp) (v : JS.number)
    (last : option JS.number) (active : option Flicker) (count : Z) :
  let r := stepChannel timestamp v (last, active, count) in
  let opens :=
    match last with
    | Some p => startsFlicker (percentChangeOf p v) active
    | None => false
    end in
  ((if opens then 1 else 0) + (match active with Some _ => 1 | None => 0 end)
   = List.length (snd r) + (match snd (fst (fst r)) with Some _ => 1 | None => 0 end))%nat.
Proof.
  cbv zeta. destruct last as [p|].
  2:{ unfold stepChannel. simpl. reflexivity. }
  destruct (startsFlicker (percentChangeOf p v) active) eqn:Hs.
  - rewrite (stepChannel_opening _ _ _ _ _ Hs).
    apply startsFlicker_true in Hs. destruct Hs as [_ Hs]. subst active. reflexivity.
  - destruct active as [f0|].
    + rewrite stepChannel_carried. cbv zeta.
      destruct (PrimFloat.ltb _ _); reflexivity.
    + rewrite (stepChannel_quiet _ _ _ _ Hs). reflexivity.
Qed.

Lemma handleSensorData_balance (timestamp : Timestamp) (data : PerSensor JS.number)
    (a : App) (s : SensorId) :
  let r := handleSensorData timestamp data a in
  ((if isFlickerDetectionRunning a && opensAt data a s then 1 else 0)
   + (if isActive a s then 1 else 0)
   = List.length (flickersOf s (snd r)) + (if isActive (fst r) s then 1 else 0))%nat.
Proof.
  intros r. unfold isActive, opensAt.
  destruct (isFlickerDetectionRunning a) eqn:Hrun.
  - destruct (handleSensorData_view timestamp data a s Hrun) as [V L].
    fold r in V, L. clearbody r. rewrite L, length_map.
    pose proof (stepChannel_balance timestamp (get data s) (get (lastValues a) s)
                  (get (activeFlickers a) s) (get (flickerCount a) s)) as B.
    cbv zeta in B. fold (view s a) in B. rewrite <- V in B.
    unfold view at 2 in B. cbn [fst snd] in B. cbn [andb].
    destruct (get (activeFlickers (fst r)) s), (get (activeFlickers a) s); exact B.
  - destruct (handleSensorData_idle timestamp data a s Hrun) as [V L].
    fold r in V, L. clearbody r. rewrite L.
    unfold view in V. inversion V as [[E1 E2 E3]]. rewrite E2. reflexivity.
Qed.

Lemma handleAll_balance (samples : list Sample) (a : App) (s : SensorId) :
  (opened s samples a + (if isActive a s then 1 else 0)
   = List.length (flickersOf s (snd (handleAll samples a)))
     + (if isActive (fst (handleAll samples a)) s then 1 else 0))%nat.
Proof.
  revert a. induction samples as [|[timestamp data] rest IH]; intros a;
    cbn [handleAll opened]; [reflexivity|].
  pose proof (handleSensorData_balance timestamp data a s) as B. cbv zeta in B.
  specialize (IH (fst (handleSensorData timestamp data a))).
  destruct (handleSensorData timestamp data a) as [a1 out1].
  cbn [fst snd] in B, IH |- *.
  destruct (handleAll rest a1) as [a2 out2].
  cbn [fst snd] in *. rewrite flickersOf_app, length_app. lia.
Qed.

(** When an event logs a row for a sensor, it logs one, and the sensor has
    no flicker in progress afterwards. *)
Lemma ended_flicker_is_cleared (timestamp : Timestamp) (data : PerSensor JS.number)
    (a : App) (s : SensorId) (fd : FlickerData.t) :
  let r := handleSensorData timestamp data a in
  In fd (flickersOf s (snd r)) ->
  flickersOf s (snd r) = [fd] /\ get (activeFlickers (fst r)) s = None.
Proof.
  intros r Hin.
  destruct (isFlickerDetectionRunning a) eqn:Hrun.
  2:{ destruct (handleSensorData_idle timestamp data a s Hrun) as [_ E].
      fold r in E. rewrite E in Hin. destruct Hin. }
  destruct (handleSensorData_view timestamp data a s Hrun) as [V L].
  fold r in V, L. clearbody r. rewrite L in Hin |- *. clear L.
  destruct (view s a) as [[last active] count].
  unfold stepChannel in V, Hin |- *.
  destruct last as [p|]; [|destruct Hin].
  destruct (if startsFlicker (percentChangeOf p (get data s)) active
            then _ else active) as [f0|]; [|destruct Hin].
  destruct (PrimFloat.ltb _ _); cbn [fst snd map In] in *; [|destruct Hin].
  destruct Hin as [E|[]]. subst fd.
  apply view_eq in V. tauto.
Qed.

(** A flicker in progress is never replaced by another one: what is in
    progress after an event is the same flicker, brought up to date. *)
Lemma flicker_in_progress_is_kept (timestamp : Timestamp) (data : PerSensor JS.number)
    (a : App) (s : SensorId) (f f' : Flicker) :
  get (activeFlickers a) s = Some f ->
  get (activeFlickers (fst (handleSensorData timestamp data a))) s = Some f' ->
  startTime f' = startTime f /\ initialValue f' = initialValue f.
Proof.
  intros Hf Hf'.
  destruct (isFlickerDetectionRunning a) eqn:Hrun.
  - destruct (handleSensorData_view timestamp data a s Hrun) as [V _].
    unfold view in V. rewrite Hf, Hf' in V.
    destruct (get (lastValues a) s) as [p|].
    + rewrite stepChannel_carried in V. cbv zeta in V.
      destruct (PrimFloat.ltb _ _); cbn [fst] in V; inversion V. split; reflexivity.
    + unfold stepChannel in V. cbn [fst] in V. inversion V. split; reflexivity.
  - destruct (handleSensorData_idle timestamp data a s Hrun) as [V _].
    unfold view in V. rewrite Hf, Hf' in V. inversion V. split; reflexivity.
Qed.

(** C4. From the start of a session and through any stream of readings,
    each sensor has at most one flicker in progress: the flickers opened so
    far are the flickers ended so far, plus one exactly when one is in
    progress. A reading opens a flicker only when none is in progress; a
    flicker that ends is logged once and the cell is cleared; and a flicker
    in progress is never replaced by another. *)
Theorem one_flicker_in_progress_per_sensor (a0 : App) (before : list Sample)
    (timestamp : Timestamp) (data : PerSensor JS.number) (s : SensorId) :
  let start := resetFlickerDetection (setIsFlickerDetectionRunning true a0) in
  let a := fst (handleAll before start) in
  let ended := List.length (flickersOf s (snd (handleAll before start))) in
  let r := handleSensorData timestamp data a in
  opened s before start = (ended + (if isActive a s then 1 else 0))%nat
  /\ (opensAt data a s = true -> get (activeFlickers a) s = None)
  /\ (forall fd, In fd (flickersOf s (snd r)) ->
                 flickersOf s (snd r) = [fd] /\ get (activeFlickers (fst r)) s = None)
  /\ (forall f f', get (activeFlickers a) s = Some f ->
                   get (activeFlickers (fst r)) s = Some f' ->
                   startTime f' = startTime f /\ initialValue f' = initialValue f).
Proof.
  intros start a ended r. split; [|split; [|split]].
  - pose proof (handleAll_balance before start s) as B.
    assert (E : isActive start s = false) by (destruct s; reflexivity).
    rewrite E in B. fold a in B. fold ended in B. lia.
  - unfold opensAt. destruct (get (lastValues a) s) as [p|]; [|discriminate].
    intros H. apply startsFlicker_true in H. tauto.
  - intros fd. apply ended_flicker_is_cleared.
  - intros f f'. apply flicker_in_progress_is_kept.
Qed.

(** ** A flicker ends at the first return to its initial value *)

Lemma Forall_firstn_keeps {A} (P : A -> Prop) (k : nat) (l : list A) :
  Forall P l -> Forall P (firstn k l).
Proof.
  revert k. induction l as [|x l IH]; intros k H; destruct k; simpl;
    try constructor; inversion H; auto.
Qed.

(** While no reading returns within the threshold of the initial value, the
    flicker stays in progress and nothing is logged. *)
Lemma runChannel_stays_open (s : SensorId) (between : list Sample)
    (last : JS.number) (f : Flicker) (count : Z) :
  Forall (fun sample : Sample =>
            PrimFloat.ltb (returnPercentChangeOf (get (snd sample) s) (initialValue f))
                          FLICKER_THRESHOLD = false) between ->
  exists last' f',
    runChannel s between (Some last, Some f, count) = ((Some last', Some f', count), [])
    /\ startTime f' = startTime f /\ initialValue f' = initialValue f.
Proof.
  revert last f. induction between as [|[timestamp data] rest IH]; intros last f H.
  - exists last, f. repeat split.
  - inversion H as [|x l Hhere Hrest]; subst. cbn [snd] in Hhere.
    cbn [runChannel]. rewrite stepChannel_carried. cbv zeta. rewrite Hhere.
    destruct (IH (get data s) (updateFlicker (get data s)
                                 (percentChangeOf last (get data s)) f) Hrest)
      as [last' [f' [E [Et Ei]]]].
    rewrite E. exists last', f'. repeat split; assumption.
Qed.

(** C6. A flicker opened by a reading, with the previous value [p] as its
    initial value, ends at the first later reading [v] for which
    [|(v - p) / p| * 100 < FLICKER_THRESHOLD]: through the opening reading
    and every reading before that one (any number [k] of them) it is still
    in progress, with the same start and initial value, and nothing is
    logged for the sensor; on that reading exactly one row is logged, from
    the opening instant to this one, and the cell is cleared. *)
Theorem flicker_ends_at_first_return (a : App) (s : SensorId) (p : JS.number)
    (t_i : Timestamp) (d_i : PerSensor JS.number) (between : list Sample)
    (t_j : Timestamp) (d_j : PerSensor JS.number) (k : nat) :
  isFlickerDetectionRunning a = true ->
  get (lastValues a) s = Some p ->
  opensAt d_i a s = true ->
  Forall (fun sample : Sample =>
            PrimFloat.ltb (returnPercentChangeOf (get (snd sample) s) p)
                          FLICKER_THRESHOLD = false) between ->
  PrimFloat.ltb (returnPercentChangeOf (get d_j s) p) FLICKER_THRESHOLD = true ->
  let partly := handleAll ((t_i, d_i) :: firstn k between) a in
  let r := handleAll ((t_i, d_i) :: between) a in
  let r' := handleSensorData t_j d_j (fst r) in
  (flickersOf s (snd partly) = []
   /\ exists f, get (activeFlickers (fst partly)) s = Some f
                /\ startTime f = t_i /\ initialValue f = p)
  /\ flickersOf s (snd r) = []
  /\ (exists fd, flickersOf s (snd r') = [fd]
                 /\ FlickerData.sensor fd = s
                 /\ FlickerData.startTime fd = t_i
                 /\ FlickerData.endTime fd = t_j
                 /\ FlickerData.initialValue fd = JS.toFixed 3 p)
  /\ get (activeFlickers (fst r')) s = None.
Proof.
  intros Hrun Hlast Hopen Hbetween Hreturn partly r r'.
  unfold opensAt in Hopen. rewrite Hlast in Hopen.
  assert (Hany : forall l,
             Forall (fun sample : Sample =>
                       PrimFloat.ltb (returnPercentChangeOf (get (snd sample) s) p)
                                     FLICKER_THRESHOLD = false) l ->
             exists last' f',
               view s (fst (handleAll ((t_i, d_i) :: l) a))
                 = (Some last', Some f', get (flickerCount a) s)
               /\ flickersOf s (snd (handleAll ((t_i, d_i) :: l) a)) = []
               /\ startTime f' = t_i /\ initialValue f' = p).
  { intros l Hl.
    destruct (handleAll_view ((t_i, d_i) :: l) a s Hrun) as [V L].
    rewrite V, L. cbn [runChannel]. unfold view. rewrite Hlast.
    rewrite (stepChannel_opening _ _ _ _ _ Hopen).
    destruct (runChannel_stays_open s l (get d_i s)
                (updateFlicker (get d_i s) (percentChangeOf p (get d_i s))
                   (mkFlicker t_i p (get d_i s)
                              (JS.Math_abs (percentChangeOf p (get d_i s)))))
                (get (flickerCount a) s) Hl) as [last' [f' [E [Et Ei]]]].
    rewrite E. exists last', f'. repeat split; assumption. }
  split; [|split].
  - destruct (Hany (firstn k between) (Forall_firstn_keeps _ k _ Hbetween))
      as [last' [f' [V [L [Et Ei]]]]].
    fold partly in V, L. split; [exact L|].
    exists f'. apply view_eq in V. tauto.
  - destruct (Hany between Hbetween) as [last' [f' [V [L _]]]]. exact L.
  - destruct (Hany between Hbetween) as [last' [f' [V [_ [Et Ei]]]]].
    fold r in V.
    assert (Hrun' : isFlickerDetectionRunning (fst r) = true)
      by (unfold r; now rewrite handleAll_running).
    destruct (handleSensorData_view t_j d_j (fst r) s Hrun') as [V' L'].
    fold r' in V', L'. clearbody r' r partly.
    rewrite V in V', L'. rewrite stepChannel_carried in V', L'. cbv zeta in V', L'.
    rewrite Ei, Hreturn in V', L'. cbn [fst snd map] in V', L'.
    split.
    + eexists. split; [exact L'|]. unfold flickerDataOf.
      cbn [FlickerData.sensor FlickerData.startTime FlickerData.endTime
           FlickerData.initialValue updateFlicker startTime initialValue].
      rewrite Et, Ei. repeat split.
    + apply view_eq in V'. tauto.
Qed.

(** Sensor1 at 100, then 80 (the flicker opens), 90 and 85 (still more than
    one percent away from 100), then 100. *)
Lemma flicker_ends_at_first_return_witness :
  let a := mkApp true "Flicker Detection Running" (mkPerSensor 100%float 0%float) []
                 false true (mkPerSensor 0 0)
                 (mkPerSensor (Some 100%float) (Some 0%float)) (mkPerSensor None None) in
  let d_i := mkPerSensor 80%float 0%float in
  let between := [(1100, mkPerSensor 90%float 0%float);
                  (1200, mkPerSensor 85%float 0%float)] in
  let d_j := mkPerSensor 100%float 0%float in
  let r := handleAll ((1000, d_i) :: between) a in
  isFlickerDetectionRunning a = true
  /\ get (lastValues a) sensor1 = Some 100%float
  /\ opensAt d_i a sensor1 = true
  /\ Forall (fun sample : Sample =>
               PrimFloat.ltb (returnPercentChangeOf (get (snd sample) sensor1) 100%float)
                             FLICKER_THRESHOLD = false) between
  /\ PrimFloat.ltb (returnPercentChangeOf (get d_j sensor1) 100%float)
                   FLICKER_THRESHOLD = true
  /\ get (activeFlickers (fst (handleSensorData 1300 d_j (fst r)))) sensor1 = None.
Proof.
  intros a d_i between d_j r.
  assert (H1 : isFlickerDetectionRunning a = true) by reflexivity.
  assert (H2 : get (lastValues a) sensor1 = Some 100%float) by reflexivity.
  assert (H3 : opensAt d_i a sensor1 = true) by (vm_compute; reflexivity).
  assert (H4 : Forall (fun sample : Sample =>
               PrimFloat.ltb (returnPercentChangeOf (get (snd sample) sensor1) 100%float)
                             FLICKER_THRESHOLD = false) between)
    by (repeat constructor).
  assert (H5 : PrimFloat.ltb (returnPercentChangeOf (get d_j sensor1) 100%float)
                             FLICKER_THRESHOLD = true) by (vm_compute; reflexivity).
  repeat (split; [assumption|]).
  apply (flicker_ends_at_first_return a sensor1 100%float 1000 d_i between 1300 d_j 1
           H1 H2 H3 H4 H5).
Defined.

(** ** The recipe runner *)

Lemma invoke_spec (channel : Channel) (w : World) :
  match invoke channel w with
  | (Returned result, w1) =>
      app w1 = app w /\ trace w1 = trace w ++ [invoked channel (Some result)]
  | (Threw _, w1) =>
      app w1 = app w /\ trace w1 = trace w ++ [invoked channel None]
  end.
Proof.
  unfold invoke.
  destruct (match faults w with f :: _ => f | [] => no_fault end);
    try (destruct (Main.handle channel _ (main w)) as [result m]); simpl; auto.
Qed.

Lemma toggleFlickerDetection_spec (running : bool) (w : World) :
  let channel := if running then stop_flicker_detection else start_flicker_detection in
  let r := toggleFlickerDetection running w in
  isRunningRecipe (app (snd r)) = isRunningRecipe (app w)
  /\ map shapeOf (trace (snd r)) = map shapeOf (trace w) ++ [called channel].
Proof.
  unfold toggleFlickerDetection, bind.
  destruct running; cbn [negb].
  - pose proof (invoke_spec stop_flicker_detection w) as H.
    destruct (invoke stop_flicker_detection w) as [[result|message] w1];
      destruct H as [Ha Ht].
    + destruct (success result); cbn; rewrite Ha, Ht, map_app; auto.
    + cbn. rewrite Ha, Ht, map_app. auto.
  - pose proof (invoke_spec start_flicker_detection w) as H.
    destruct (invoke start_flicker_detection w) as [[result|message] w1];
      destruct H as [Ha Ht].
    + destruct (success result); cbn; rewrite Ha, Ht, map_app; auto.
    + cbn. rewrite Ha, Ht, map_app. auto.
Qed.

Lemma send_command_spec (command : string) (w : World) :
  let r := (invoke (send_command command) ;;; ret tt) w in
  isRunningRecipe (app (snd r)) = isRunningRecipe (app w)
  /\ map shapeOf (trace (snd r)) = map shapeOf (trace w) ++ [called (send_command command)].
Proof.
  unfold bind, ret.
  pose proof (invoke_spec (send_command command) w) as H.
  destruct (invoke (send_command command) w) as [[result|message] w1];
    destruct H as [Ha Ht]; cbn; rewrite Ha, Ht, map_app; auto.
Qed.

(** Whether it returns or throws, the switch leaves [isRunningRecipe] alone
    and does what [switchShape] says. *)
Lemma switchStep_spec (running : bool) (step : Step) (w : World) :
  let r := switchStep running step w in
  isRunningRecipe (app (snd r)) = isRunningRecipe (app w)
  /\ map shapeOf (trace (snd r)) = map shapeOf (trace w) ++ switchShape running step.
Proof.
  destruct step; cbn [switchStep switchShape];
    try apply send_command_spec.
  - destruct running; cbn [negb].
    + cbn. now rewrite app_nil_r.
    + apply (toggleFlickerDetection_spec false).
  - destruct running.
    + apply (toggleFlickerDetection_spec true).
    + cbn. now rewrite app_nil_r.
  - cbn. now rewrite map_app.
Qed.

(** When a call followed by code that cannot throw throws, the call was
    rejected. *)
Lemma bind_invoke_throws (channel : Channel) (k : IpcResult -> Async unit)
    (w w1 : World) (message : string) :
  (forall (result : IpcResult) (w' : World),
      exists w'', k result w' = (Returned tt, w'')) ->
  bind (invoke channel) k w = (Threw message, w1) ->
  trace w1 = trace w ++ [invoked channel None].
Proof.
  intros Hk. unfold bind.
  pose proof (invoke_spec channel w) as H.
  destruct (invoke channel w) as [[result|m] w'].
  - destruct (Hk result w') as [w'' E]. rewrite E. discriminate.
  - intros E. inversion E; subst. tauto.
Qed.

Lemma toggleFlickerDetection_throws (running : bool) (w w1 : World)
    (message : string) :
  toggleFlickerDetection running w = (Threw message, w1) ->
  trace w1
    = trace w ++ [invoked (if running then stop_flicker_detection
                           else start_flicker_detection) None].
Proof.
  unfold toggleFlickerDetection.
  destruct running; cbn [negb]; intros H;
    (eapply bind_invoke_throws; [|exact H]);
    intros result w'; cbv beta; destruct (success result);
    unfold bind, update; eexists; reflexivity.
Qed.

(** A step that throws has thrown in its only call. *)
Lemma switchStep_throws (running : bool) (step : Step) (w w1 : World)
    (message : string) :
  switchStep running step w = (Threw message, w1) ->
  exists channel,
    switchShape running step = [called channel]
    /\ trace w1 = trace w ++ [invoked channel None].
Proof.
  assert (Hret : forall (result : IpcResult) (w' : World),
             exists w'', ret tt w' = (Returned tt, w''))
    by (intros result w'; exists w'; reflexivity).
  destruct step; cbn [switchStep switchShape]; intros H;
    try (eexists; split; [reflexivity|]; now apply (bind_invoke_throws _ _ _ _ _ Hret H)).
  - destruct running; cbn [negb] in H; [discriminate|].
    eexists. split; [reflexivity|]. exact (toggleFlickerDetection_throws false _ _ _ H).
  - destruct running; [|discriminate].
    eexists. split; [reflexivity|]. exact (toggleFlickerDetection_throws true _ _ _ H).
  - discriminate.
Qed.

Lemma tryStep_spec (running : bool) (step : Step) (w : World) :
  match tryStep running step w with
  | (Returned _, w1) =>
      isRunningRecipe (app w1) = isRunningRecipe (app w)
      /\ map shapeOf (trace w1) = map shapeOf (trace w) ++ stepShape running step
  | (Threw message, w1) =>
      isRunningRecipe (app w1) = isRunningRecipe (app w)
      /\ switchStep running step w = (Threw message, w1)
  end.
Proof.
  unfold tryStep, bind, stepShape.
  pose proof (switchStep_spec running step w) as H. cbv zeta in H.
  destruct (switchStep running step w) as [[[]|message] w1]; cbn [snd] in H.
  - cbn. destruct H as [Ha Ht]. rewrite map_app, Ht, app_assoc. auto.
  - destruct H as [Ha Ht]. auto.
Qed.

Lemma invoke_noRejection (channel : Channel) (w : World) :
  noRejection w = true ->
  exists result w1, invoke channel w = (Returned result, w1) /\ noRejection w1 = true.
Proof.
  unfold noRejection, invoke. intros H.
  destruct (faults w) as [|f rest]; cbn [forallb] in H |- *.
  - destruct (Main.handle channel no_fault (main w)) as [result m].
    eexists. eexists. split; reflexivity.
  - apply andb_prop in H. destruct H as [Hf Hrest].
    destruct f; cbn in Hf; try discriminate;
      destruct (Main.handle channel _ (main w)) as [result m];
      eexists; eexists; (split; [reflexivity|exact Hrest]).
Qed.

Lemma tryStep_noRejection (running : bool) (step : Step) (w : World) :
  noRejection w = true ->
  exists w1, tryStep running step w = (Returned tt, w1) /\ noRejection w1 = true.
Proof.
  intros H.
  assert (Hsend : forall command,
             exists w1, ((invoke (send_command command) ;;; ret tt) ;;; sleepFor 100) w
                          = (Returned tt, w1) /\ noRejection w1 = true).
  { intros command.
    destruct (invoke_noRejection (send_command command) w H) as [result [w1 [E N]]].
    unfold bind. rewrite E. cbn. eexists. split; [reflexivity|exact N]. }
  assert (Htoggle : forall r,
             exists w1, (toggleFlickerDetection r ;;; sleepFor 100) w = (Returned tt, w1)
                        /\ noRejection w1 = true).
  { intros r. unfold toggleFlickerDetection, bind.
    destruct r; cbn [negb].
    - destruct (invoke_noRejection stop_flicker_detection w H) as [result [w1 [E N]]].
      rewrite E. destruct (success result); cbn; eexists; (split; [reflexivity|exact N]).
    - destruct (invoke_noRejection start_flicker_detection w H) as [result [w1 [E N]]].
      rewrite E. destruct (success result); cbn; eexists; (split; [reflexivity|exact N]). }
  unfold tryStep.
  destruct step; cbn [switchStep]; try apply Hsend.
  - destruct running; cbn [negb]; [|apply Htoggle].
    cbn. eexists. split; [reflexivity|exact H].
  - destruct running; [apply Htoggle|].
    cbn. eexists. split; [reflexivity|exact H].
  - cbn. eexists. split; [reflexivity|exact H].
Qed.

(** What the loop does, for every recipe and every world: it carries the
    steps [done] to their end, in the order of the recipe, and either that
    is the whole recipe or the call of the next step was rejected, which
    ends the loop with a "Recipe Error" status. *)
Lemma forSteps_shape (running : bool) (steps : list Step) (w : World) :
  exists done rest,
    steps = done ++ rest
    /\ map shapeOf (trace (forSteps running steps w))
       = map shapeOf (trace w) ++ flat_map (stepShape running) done
         ++ match rest with [] => [] | step :: _ => switchShape running step end
    /\ (rest = []
        \/ exists message,
             status (app (forSteps running steps w)) = ("Recipe Error: " ++ message)%string)
    /\ (noRejection w = true -> rest = [])
    /\ isRunningRecipe (app (forSteps running steps w)) = isRunningRecipe (app w).
Proof.
  revert w. induction steps as [|step steps IH]; intros w.
  - exists [], []. cbn. rewrite app_nil_r. auto.
  - cbn [forSteps].
    pose proof (tryStep_spec running step w) as Hspec.
    pose proof (tryStep_noRejection running step w) as Hno.
    destruct (tryStep running step w) as [[[]|message] w1].
    + destruct Hspec as [Ha Ht].
      destruct (IH w1) as [done [rest [E [T [S [N R]]]]]].
      exists (step :: done), rest. split; [now rewrite E|].
      split; [|split; [exact S|split]].
      * rewrite T, Ht. cbn [flat_map]. now rewrite <- !app_assoc.
      * intros Hw. destruct (Hno Hw) as [w1' [E1 N1]].
        inversion E1; subst. now apply N.
      * now rewrite R.
    + destruct Hspec as [Ha Hthrow].
      destruct (switchStep_throws running step w w1 message Hthrow)
        as [channel [Hshape Htrace]].
      exists [], (step :: steps). split; [reflexivity|].
      split; [|split; [|split]].
      * cbn. rewrite Htrace, map_app, Hshape. reflexivity.
      * right. exists message. reflexivity.
      * intros Hw. destruct (Hno Hw) as [w1' [E1 _]]. discriminate.
      * cbn. exact Ha.
Qed.

(** C7. [runRecipe] takes the steps of the recipe in their order, one after
    the other: what it does is what the steps [done] do, step by step, and
    [done] is the whole recipe unless a call is rejected (and it is the whole
    recipe when none is). Every step carried to its end finishes with the
    pause of 100 ms, a delay step too; and a delay of [d] seconds asks for a
    timer of [d * 1000] ms before that pause, so that the next step starts
    no sooner than [d * 1000 + 100] ms after the delay step began. *)
Theorem recipe_steps_run_in_order (w : World) :
  let running := isFlickerDetectionRunning (app w) in
  let steps := recipe (app w) in
  (exists done rest,
      steps = done ++ rest
      /\ map shapeOf (trace (runRecipe w))
         = map shapeOf (trace w) ++ flat_map (stepShape running) done
           ++ match rest with [] => [] | step :: _ => switchShape running step end
      /\ (rest = []
          \/ exists message, status (app (runRecipe w)) = ("Recipe Error: " ++ message)%string)
      /\ (noRejection w = true -> rest = []))
  /\ (forall step, stepShape running step = switchShape running step ++ [waited 100])
  /\ (forall d, stepShape running (delay d) = [waited (d * 1000); waited 100]
                /\ d * 1000 + 100 <= leastTime (stepShape running (delay d))).
Proof.
  intros running steps. split; [|split].
  - unfold runRecipe. fold running. fold steps.
    destruct (forSteps_shape running steps (snd (update (setIsRunningRecipe true) w)))
      as [done [rest [E [T [S [N _]]]]]].
    exists done, rest. split; [exact E|]. split; [exact T|]. split; [exact S|exact N].
  - reflexivity.
  - intros d. split; [reflexivity|]. cbn. lia.
Qed.

(** Scenario C: with the port open and nothing going wrong, the five steps
    and their five pauses. Detection is started and never stopped: the
    [endFlicker] step tests the [isFlickerDetectionRunning] of the render in
    which Run Recipe was clicked, where it was still false. *)
Example scenario_C :
  let m := Main.mk true true true false false [] in
  let a := setRecipe [connectUSB; startFlicker; delay 5; endFlicker; disconnectUSB]
                     (setIsConnected true initialApp) in
  let w := runRecipe (mkWorld a m [] []) in
  map shapeOf (trace w)
    = [called (send_command "c"); waited 100;
       called start_flicker_detection; waited 100;
       waited 5000; waited 100;
       waited 100;
       called (send_command "d"); waited 100]
  /\ isRunningRecipe (app w) = false
  /\ status (app w) = "Flicker Detection Running"
  /\ isFlickerDetectionRunning (app w) = true
  /\ Main.isFlickerDetectionActive (main w) = true.
Proof. vm_compute. repeat split. Qed.

(** [runRecipe] always ends with [isRunningRecipe] false. *)
Lemma runRecipe_ends_idle (w : World) : isRunningRecipe (app (runRecipe w)) = false.
Proof. reflexivity. Qed.

(** A step that throws ends the loop: no later step is entered, and the
    message is put in the status. *)
Lemma forSteps_stops_at_throw (running : bool) (step : Step) (rest : list Step)
    (w w1 : World) (message : string) :
  tryStep running step w = (Threw message, w1) ->
  trace (forSteps running (step :: rest) w) = trace w1
  /\ status (app (forSteps running (step :: rest) w)) = ("Recipe Error: " ++ message)%string.
Proof. intros H. cbn [forSteps]. rewrite H. split; reflexivity. Qed.

(** C3, at the failing input. With the serial port closed, the
    [send-command] handler resolves to [{ success: false, error: 'Serial
    port is not open' }]; [runRecipe] does not read the result, so the
    recipe [connectUSB, startFlicker] goes on to call
    [start-flicker-detection], and the connection failure is never put in
    the status. With the port open and a write error on the same command,
    detection is started after the failed command. *)
Theorem runRecipe_goes_on_after_failed_command :
  let recipe0 := [connectUSB; startFlicker] in
  let closed := mkWorld (setRecipe recipe0 initialApp)
                        (Main.mk false false false false false []) [] [] in
  let broken := mkWorld (setRecipe recipe0 (setIsConnected true initialApp))
                        (Main.mk true true true false false [])
                        [io_error "write failed"] [] in
  (trace (runRecipe closed)
     = [invoked (send_command "c") (Some (failed "Serial port is not open"));
        timeout 100;
        invoked start_flicker_detection (Some (failed "Serial port is not connected"));
        timeout 100]
   /\ status (app (runRecipe closed)) = "Error: Serial port is not connected"
   /\ isRunningRecipe (app (runRecipe closed)) = false)
  /\ (trace (runRecipe broken)
        = [invoked (send_command "c") (Some (failed "write failed"));
           timeout 100;
           invoked start_flicker_detection (Some succeeded);
           timeout 100]
      /\ status (app (runRecipe broken)) = "Flicker Detection Running"
      /\ isFlickerDetectionRunning (app (runRecipe broken)) = true
      /\ Main.written (main (runRecipe broken)) = []).
Proof. vm_compute. repeat split. Qed.

(** ** One run at a time *)

Lemma runs_invariant_step (e : Event) (p : Page) :
  match runs p with
  | [] => isRunningRecipe (app (world p)) = false
  | [_] => isRunningRecipe (app (world p)) = true
  | _ :: _ :: _ => False
  end ->
  match runs (react e p) with
  | [] => isRunningRecipe (app (world (react e p))) = false
  | [_] => isRunningRecipe (app (world (react e p))) = true
  | _ :: _ :: _ => False
  end.
Proof.
  intros Inv. destruct e as [step| | |k]; cbn [react].
  - cbn. exact Inv.
  - unfold runRecipeDisabled.
    destruct (isRunningRecipe (app (world p))) eqn:Hflag; cbn [orb];
      [rewrite Hflag; exact Inv|].
    destruct (recipe (app (world p))) as [|step steps] eqn:Hrecipe;
      [rewrite Hflag; exact Inv|].
    destruct (runs p) as [|r [|r' rs]]; [reflexivity|discriminate|destruct Inv].
  - destruct (negb (isConnected (app (world p)))); [exact Inv|].
    cbn [runs world].
    destruct (toggleFlickerDetection_spec
                (isFlickerDetectionRunning (app (world p))) (world p)) as [Hflag _].
    rewrite Hflag. exact Inv.
  - destruct (nth_error (runs p) k) as [r|] eqn:Hk; [|exact Inv].
    destruct (runs p) as [|r0 [|r1 rs]] eqn:Hruns; [destruct k; discriminate| |destruct Inv].
    destruct k as [|k]; [|destruct k; discriminate].
    assert (Hleave : forall w', runs (leave 0 w' p) = []
                                /\ isRunningRecipe (app (world (leave 0 w' p))) = false)
      by (intros w'; unfold leave; cbn; rewrite Hruns; split; reflexivity).
    destruct (pending r) as [|step rest].
    { destruct (Hleave (world p)) as [E1 E2]. rewrite E1. exact E2. }
    pose proof (tryStep_spec (captured r) step (world p)) as Hspec.
    destruct (tryStep (captured r) step (world p)) as [[[]|message] w1].
    + destruct rest.
      * destruct (Hleave w1) as [E1 E2]. rewrite E1. exact E2.
      * cbn [runs world replaceNth].
        destruct Hspec as [Hflag _]. rewrite Hflag. exact Inv.
    + match goal with |- context [leave 0 ?w' p] =>
        destruct (Hleave w') as [E1 E2]; rewrite E1; exact E2 end.
Qed.

Lemma runs_invariant (events : list Event) (p : Page) :
  match runs p with
  | [] => isRunningRecipe (app (world p)) = false
  | [_] => isRunningRecipe (app (world p)) = true
  | _ :: _ :: _ => False
  end ->
  match runs (reactAll events p) with
  | [] => isRunningRecipe (app (world (reactAll events p))) = false
  | [_] => isRunningRecipe (app (world (reactAll events p))) = true
  | _ :: _ :: _ => False
  end.
Proof.
  revert p. induction events as [|e events IH]; intros p Inv; cbn [reactAll];
    [exact Inv|].
  apply IH. now apply runs_invariant_step.
Qed.

(** C8. Whatever is clicked and whenever the suspended run is resumed, the
    page never has two calls of [runRecipe] in progress; while one is in
    progress [isRunningRecipe] is true, the Run Recipe button is disabled
    and a click on it changes nothing. The guard is the [disabled] attribute
    of the button, the only caller of [runRecipe]. *)
Theorem one_recipe_at_a_time (m : Main.t) (fs : list Fault) (events : list Event) :
  let p := reactAll events (initialPage m fs) in
  (List.length (runs p) <= 1)%nat
  /\ (runs p <> [] ->
      isRunningRecipe (app (world p)) = true
      /\ runRecipeDisabled (app (world p)) = true
      /\ react clickRunRecipe p = p)
  /\ (runs p = [] -> isRunningRecipe (app (world p)) = false).
Proof.
  intros p.
  assert (Inv : match runs p with
                | [] => isRunningRecipe (app (world p)) = false
                | [_] => isRunningRecipe (app (world p)) = true
                | _ :: _ :: _ => False
                end)
    by (apply runs_invariant; reflexivity).
  clearbody p.
  destruct (runs p) as [|r [|r' rs]] eqn:Hruns; [| |destruct Inv].
  - split; [cbn; lia|]. split; [congruence|]. intros _. exact Inv.
  - split; [cbn; lia|]. split; [|discriminate]. intros _.
    split; [exact Inv|].
    cbn [react]. unfold runRecipeDisabled. rewrite Inv. cbn [orb]. auto.
Qed.

(** Left alone, the suspended run does what [runRecipe] does in one go. *)
Lemma resumed_run_is_runRecipe (running : bool) (step : Step) (steps : list Step)
    (w : World) :
  reactAll (repeat (resume 0) (List.length (step :: steps)))
           (mkPage w [mkRun running (step :: steps)])
    = mkPage (snd (update (setIsRunningRecipe false)
                     (forSteps running (step :: steps) w))) [].
Proof.
  assert (Hidle : forall n p, runs p = [] -> reactAll (repeat (resume 0) n) p = p).
  { induction n as [|n IH]; intros p Hp; cbn [repeat reactAll]; [reflexivity|].
    assert (E : react (resume 0) p = p) by (cbn [react]; now rewrite Hp).
    rewrite E. now apply IH. }
  revert step w. induction steps as [|step' steps IH]; intros step w.
  - cbn [List.length repeat reactAll react runs nth_error pending captured world].
    cbn [forSteps].
    destruct (tryStep running step w) as [[[]|message] w1]; reflexivity.
  - change (List.length (step :: step' :: steps)) with (S (List.length (step' :: steps))).
    cbn [repeat reactAll]. cbn [react runs nth_error pending captured world].
    cbn [forSteps].
    destruct (tryStep running step w) as [[[]|message] w1].
    + cbn [replaceNth]. apply IH.
    + apply Hidle. reflexivity.
Qed.


(* ================================================================== *)
(** * Further properties of the detector *)

Lemma runChannel_readings (s : SensorId) (samples samples' : list Sample)
    (c : Channel1) :
  readingsOf s samples = readingsOf s samples' ->
  runChannel s samples c = runChannel s samples' c.
Proof.
  revert samples' c.
  induction samples as [|[t d] rest IH]; intros [|[t' d'] rest'] c H;
    try discriminate; [reflexivity|].
  cbn in H. inversion H as [[Et Ed Erest]]. cbn [runChannel].
  rewrite Ed. destruct (stepChannel t' (get d' s) c) as [c1 ended].
  now rewrite (IH rest' c1 Erest).
Qed.

(** X1. The two sensors do not influence each other: two sessions in which
    one sensor starts from the same cells and reads the same values at the
    same instants log the same flickers for it and leave it in the same
    cells, whatever the other sensor reads in either. *)
Theorem channels_are_independent (samples samples' : list Sample) (a a' : App)
    (s : SensorId) :
  isFlickerDetectionRunning a = true ->
  isFlickerDetectionRunning a' = true ->
  view s a = view s a' ->
  readingsOf s samples = readingsOf s samples' ->
  view s (fst (handleAll samples a)) = view s (fst (handleAll samples' a'))
  /\ flickersOf s (snd (handleAll samples a))
     = flickersOf s (snd (handleAll samples' a')).
Proof.
  intros Hrun Hrun' Hview Hread.
  destruct (handleAll_view samples a s Hrun) as [V L].
  destruct (handleAll_view samples' a' s Hrun') as [V' L'].
  rewrite V, V', L, L', Hview, (runChannel_readings s samples samples' _ Hread).
  split; reflexivity.
Qed.

(** The readings of Scenario A on sensor1, once beside a quiet sensor2 and
    once beside a sensor2 that jumps about. *)
Lemma channels_are_independent_witness :
  let a := resetFlickerDetection (setIsFlickerDetectionRunning true initialApp) in
  let samples :=
    [(0, mkPerSensor 100%float 0%float); (100, mkPerSensor 80%float 0%float);
     (200, mkPerSensor 100%float 0%float)] in
  let samples' :=
    [(0, mkPerSensor 100%float 7%float); (100, mkPerSensor 80%float 900%float);
     (200, mkPerSensor 100%float 3%float)] in
  flickersOf sensor1 (snd (handleAll samples a))
    = flickersOf sensor1 (snd (handleAll samples' a)).
Proof.
  intros a samples samples'.
  apply (channels_are_independent samples samples' a a sensor1); reflexivity.
Defined.

Lemma processSensor_frame (timestamp : Timestamp) (data : PerSensor JS.number)
    (sensorId : SensorId) (a : App) :
  let a' := fst (processSensor timestamp data sensorId a) in
  sensorData a' = sensorData a /\ recipe a' = recipe a
  /\ isRunningRecipe a' = isRunningRecipe a /\ status a' = status a
  /\ isConnected a' = isConnected a.
Proof.
  unfold processSensor.
  destruct (get (lastValues a) sensorId) as [lastValue|]; simpl; [|tauto].
  unfold checkStart, updateActive.
  destruct (startsFlicker _ _); simpl.
  - rewrite get_set_same.
    match goal with |- context [PrimFloat.ltb ?x ?y] => destruct (PrimFloat.ltb x y) end;
      simpl; tauto.
  - destruct (get (activeFlickers a) sensorId); simpl; [|tauto].
    match goal with |- context [PrimFloat.ltb ?x ?y] => destruct (PrimFloat.ltb x y) end;
      simpl; tauto.
Qed.

(** An event leaves the recipe, the recipe flag, the status and the
    connection flag alone, and shows its data. *)
Lemma handleSensorData_frame (timestamp : Timestamp) (data : PerSensor JS.number)
    (a : App) :
  let a' := fst (handleSensorData timestamp data a) in
  sensorData a' = data /\ recipe a' = recipe a
  /\ isRunningRecipe a' = isRunningRecipe a /\ status a' = status a
  /\ isConnected a' = isConnected a.
Proof.
  unfold handleSensorData.
  change (isFlickerDetectionRunning (setSensorData data a))
    with (isFlickerDetectionRunning a).
  destruct (isFlickerDetectionRunning a); [|simpl; tauto].
  pose proof (processSensor_frame timestamp data sensor1 (setSensorData data a)) as F1.
  destruct (processSensor timestamp data sensor1 (setSensorData data a)) as [a1 out1].
  pose proof (processSensor_frame timestamp data sensor2 a1) as F2.
  destruct (processSensor timestamp data sensor2 a1) as [a2 out2].
  cbn [fst] in *. cbv zeta in F1, F2.
  destruct F1 as [A1 [B1 [C1 [D1 E1]]]], F2 as [A2 [B2 [C2 [D2 E2]]]].
  rewrite A2, B2, C2, D2, E2, A1, B1, C1, D1, E1. simpl. tauto.
Qed.

Lemma handleAll_idle (samples : list Sample) (a : App) :
  isFlickerDetectionRunning a = false ->
  snd (handleAll samples a) = []
  /\ lastValues (fst (handleAll samples a)) = lastValues a
  /\ activeFlickers (fst (handleAll samples a)) = activeFlickers a
  /\ flickerCount (fst (handleAll samples a)) = flickerCount a.
Proof.
  revert a. induction samples as [|[t d] rest IH]; intros a Hrun; cbn [handleAll];
    [auto|].
  assert (E : handleSensorData t d a = (setSensorData d a, [])).
  { unfold handleSensorData.
    change (isFlickerDetectionRunning (setSensorData d a))
      with (isFlickerDetectionRunning a).
    now rewrite Hrun. }
  rewrite E. specialize (IH (setSensorData d a) Hrun).
  destruct (handleAll rest (setSensorData d a)) as [a2 out2]. cbn [fst snd] in *.
  exact IH.
Qed.

(** X2. While detection is not running the detector is inert: a stream of
    events logs nothing (no flicker row and no data row) and leaves the last
    values, the flickers in progress and the counts of both sensors exactly
    as they were; a flicker that was in progress stays there, unfinished. *)
Theorem idle_detector_is_inert (samples : list Sample) (a : App) :
  isFlickerDetectionRunning a = false ->
  let r := handleAll samples a in
  snd r = []
  /\ lastValues (fst r) = lastValues a
  /\ activeFlickers (fst r) = activeFlickers a
  /\ flickerCount (fst r) = flickerCount a
  /\ isFlickerDetectionRunning (fst r) = false.
Proof.
  intros Hrun r.
  destruct (handleAll_idle samples a Hrun) as [H1 [H2 [H3 H4]]].
  repeat (split; [assumption|]).
  unfold r. now rewrite handleAll_running.
Qed.

(** A stopped session with a flicker still in progress on sensor1, and two
    readings that would have ended it. *)
Lemma idle_detector_is_inert_witness :
  let a := mkApp true "Flicker Detection Stopped" (mkPerSensor 80%float 0%float) []
                 false false (mkPerSensor 0 0)
                 (mkPerSensor (Some 80%float) (Some 0%float))
                 (mkPerSensor (Some (mkFlicker 200 100%float 80%float 20%float)) None) in
  let samples := [(300, mkPerSensor 100%float 0%float);
                  (400, mkPerSensor 100%float 0%float)] in
  isFlickerDetectionRunning a = false
  /\ snd (handleAll samples a) = []
  /\ activeFlickers (fst (handleAll samples a)) = activeFlickers a.
Proof.
  intros a samples. split; [reflexivity|].
  destruct (idle_detector_is_inert samples a eq_refl) as [H1 [_ [H3 _]]].
  split; assumption.
Defined.

Lemma dataRows_app (l1 l2 : list LogCall) :
  dataRows (l1 ++ l2) = dataRows l1 ++ dataRows l2.
Proof.
  induction l1 as [|c l1 IH]; [reflexivity|].
  destruct c; simpl; now rewrite IH.
Qed.

Lemma dataRows_flickers (f : Flicker -> FlickerData.t) (fs : list Flicker) :
  dataRows (map (fun x => log_flicker (f x)) fs) = [].
Proof. induction fs; [reflexivity|exact IHfs]. Qed.

(** While detection runs, an event sends its flicker rows first and then
    one data row. *)
Lemma handleSensorData_rows (timestamp : Timestamp) (data : PerSensor JS.number)
    (a : App) :
  isFlickerDetectionRunning a = true ->
  let r := handleSensorData timestamp data a in
  exists flickers,
    snd r = map log_flicker flickers
            ++ [log_data timestamp (JS.toFixed 3 (get data sensor1))
                         (JS.toFixed 3 (get data sensor2))
                         (isActive (fst r) sensor1) (isActive (fst r) sensor2)].
Proof.
  intros Hrun. unfold handleSensorData.
  change (isFlickerDetectionRunning (setSensorData data a))
    with (isFlickerDetectionRunning a).
  rewrite Hrun.
  destruct (processSensor_view timestamp data sensor1 (setSensorData data a)) as [_ L1].
  destruct (processSensor timestamp data sensor1 (setSensorData data a)) as [a1 out1].
  destruct (processSensor_view timestamp data sensor2 a1) as [_ L2].
  destruct (processSensor timestamp data sensor2 a1) as [a2 out2].
  cbn [fst snd] in *. cbv zeta. cbn [fst snd].
  rewrite L1, L2.
  exists (map (flickerDataOf sensor1 timestamp)
              (snd (stepChannel timestamp (get data sensor1)
                                (view sensor1 (setSensorData data a))))
          ++ map (flickerDataOf sensor2 timestamp)
                 (snd (stepChannel timestamp (get data sensor2) (view sensor2 a1)))).
  now rewrite map_app, !map_map, app_assoc.
Qed.

(** X3. While detection runs, every event sends exactly one [log-data] row,
    after the flicker rows of that event: it carries the instant, both
    readings with three decimals, and for each sensor whether a flicker is
    in progress once the event has been handled. Over a stream there is one
    data row per event, in the order of the events. *)
Theorem one_data_row_per_event (samples : list Sample) (a : App)
    (timestamp : Timestamp) (data : PerSensor JS.number) :
  isFlickerDetectionRunning a = true ->
  let r := handleSensorData timestamp data a in
  dataRows (snd r)
    = [(timestamp, JS.toFixed 3 (get data sensor1), JS.toFixed 3 (get data sensor2),
        isActive (fst r) sensor1, isActive (fst r) sensor2)]
  /\ (exists flickers row, snd r = map log_flicker flickers ++ [row]
                           /\ dataRows [row] = dataRows (snd r))
  /\ map (fun row => fst (fst (fst (fst row)))) (dataRows (snd (handleAll samples a)))
     = map fst samples.
Proof.
  intros Hrun r.
  destruct (handleSensorData_rows timestamp data a Hrun) as [flickers E].
  fold r in E.
  assert (Hfl : forall l, dataRows (map log_flicker l) = [])
    by (induction l; [reflexivity|assumption]).
  split; [|split].
  - rewrite E at 1. rewrite dataRows_app, Hfl. reflexivity.
  - eexists. eexists. split; [exact E|].
    rewrite E. rewrite dataRows_app, Hfl. reflexivity.
  - clear r E. revert a Hrun.
    induction samples as [|[t d] rest IH]; intros a Hrun; cbn [handleAll];
      [reflexivity|].
    destruct (handleSensorData_rows t d a Hrun) as [fl E].
    pose proof (handleSensorData_running t d a) as Hrun1. rewrite Hrun in Hrun1.
    destruct (handleSensorData t d a) as [a1 out1]. cbn [fst snd] in *.
    specialize (IH a1 Hrun1).
    destruct (handleAll rest a1) as [a2 out2]. cbn [fst snd] in *.
    rewrite E, !dataRows_app, Hfl, !map_app, IH. reflexivity.
Qed.

Lemma one_data_row_per_event_witness :
  let a := resetFlickerDetection (setIsFlickerDetectionRunning true initialApp) in
  let samples := [(0, mkPerSensor 100%float 0%float);
                  (100, mkPerSensor 80%float 0%float)] in
  map (fun row => fst (fst (fst (fst row)))) (dataRows (snd (handleAll samples a)))
    = [0; 100].
Proof.
  intros a samples.
  apply (one_data_row_per_event samples a 0 (mkPerSensor 0%float 0%float)).
  reflexivity.
Defined.

Lemma SFsub_same (prec emax : Z) (x : spec_float) :
  SFsub prec emax x x = S754_nan \/ exists s, SFsub prec emax x x = S754_zero s.
Proof.
  destruct x as [s|s| |s m e]; simpl.
  - right. destruct s; eexists; reflexivity.
  - left. now destruct s.
  - now left.
  - right. rewrite Z.sub_diag. simpl. eexists; reflexivity.
Qed.

(** A reading equal to the previous one is no change: the percentage is zero,
    or NaN when the value is zero or infinite, and never above the threshold. *)
Lemma percentChange_same (v : JS.number) (active : option Flicker) :
  startsFlicker (percentChangeOf v v) active = false.
Proof.
  unfold startsFlicker, JS.gtb.
  replace (PrimFloat.ltb FLICKER_THRESHOLD (JS.Math_abs (percentChangeOf v v)))
    with false; [reflexivity|].
  symmetry. rewrite ltb_spec. unfold JS.Math_abs, percentChangeOf.
  rewrite abs_spec, mul_spec, div_spec, sub_spec, Prim2SF_100.
  change (Prim2SF FLICKER_THRESHOLD) with (S754_finite false 4503599627370496 (-52)).
  unfold SF64mul, SF64div, SF64sub.
  destruct (SFsub_same prec emax (Prim2SF v)) as [E|[s E]]; rewrite E.
  - reflexivity.
  - destruct (Prim2SF v) as [sv|sv| |sv mv ev]; reflexivity.
Qed.

Lemma runChannel_steady (s : SensorId) (samples : list Sample) (v : JS.number)
    (count : Z) :
  Forall (fun sample : Sample => get (snd sample) s = v) samples ->
  runChannel s samples (Some v, None, count) = ((Some v, None, count), []).
Proof.
  induction samples as [|[t d] rest IH]; intros H; [reflexivity|].
  inversion H as [|x l Hhere Hrest]; subst x l. cbn [snd] in Hhere.
  cbn [runChannel]. rewrite Hhere.
  rewrite (stepChannel_quiet t v v count (percentChange_same v None)).
  now rewrite (IH Hrest).
Qed.

(** X4. A steady signal is never a flicker. From the start of a session, a
    sensor that reads the same value at every event, whatever the value
    (zero and the infinities included) and whatever the other sensor does,
    never has a flicker opened: nothing is logged for it, no flicker is in
    progress at the end and its count is still zero. *)
Theorem steady_signal_is_no_flicker (a0 : App) (samples : list Sample)
    (s : SensorId) (v : JS.number) :
  Forall (fun sample : Sample => get (snd sample) s = v) samples ->
  let r := handleAll samples
             (resetFlickerDetection (setIsFlickerDetectionRunning true a0)) in
  flickersOf s (snd r) = []
  /\ get (activeFlickers (fst r)) s = None
  /\ get (flickerCount (fst r)) s = 0.
Proof.
  intros Hsteady r.
  destruct (handleAll_view samples
              (resetFlickerDetection (setIsFlickerDetectionRunning true a0)) s eq_refl)
    as [V L].
  fold r in V, L. clearbody r. rewrite view_session_start in V, L.
  destruct samples as [|[t d] rest].
  - cbn in V, L. apply view_eq in V. tauto.
  - inversion Hsteady as [|x l Hhere Hrest]; subst x l. cbn [snd] in Hhere.
    cbn [runChannel] in V, L. unfold stepChannel in V, L.
    rewrite Hhere, (runChannel_steady s rest v 0 Hrest) in V, L.
    cbn [fst snd map app] in V, L. apply view_eq in V. tauto.
Qed.

(** Sensor2 sits at zero while sensor1 moves. *)
Lemma steady_signal_is_no_flicker_witness :
  let samples := [(0, mkPerSensor 100%float 0%float);
                  (100, mkPerSensor 80%float 0%float);
                  (200, mkPerSensor 100%float 0%float)] in
  flickersOf sensor2
    (snd (handleAll samples
            (resetFlickerDetection (setIsFlickerDetectionRunning true initialApp))))
  = [].
Proof.
  intros samples.
  apply (steady_signal_is_no_flicker initialApp samples sensor2 0%float).
  repeat constructor.
Defined.

Lemma stepChannel_last (timestamp : Timestamp) (v : JS.number) (c : Channel1) :
  fst (fst (fst (stepChannel timestamp v c))) = Some v.
Proof.
  destruct c as [[last active] count]. unfold stepChannel.
  destruct last as [p|]; [|reflexivity].
  destruct (if startsFlicker _ _ then _ else _); [|reflexivity].
  now destruct (PrimFloat.ltb _ _).
Qed.

Lemma handleAll_frame (samples : list Sample) (a : App) :
  let a' := fst (handleAll samples a) in
  recipe a' = recipe a /\ isRunningRecipe a' = isRunningRecipe a
  /\ status a' = status a /\ isConnected a' = isConnected a.
Proof.
  revert a. induction samples as [|[t d] rest IH]; intros a; cbn [handleAll];
    [cbn; tauto|].
  pose proof (handleSensorData_frame t d a) as F. cbv zeta in F.
  destruct (handleSensorData t d a) as [a1 out1].
  specialize (IH a1). cbv zeta in IH.
  destruct (handleAll rest a1) as [a2 out2]. cbn [fst] in *.
  destruct F as [_ [F1 [F2 [F3 F4]]]], IH as [I1 [I2 [I3 I4]]].
  rewrite I1, I2, I3, I4. tauto.
Qed.

(** X5. After a stream of events the component shows the data of the last
    event, running or not, and the stream has changed neither the recipe,
    nor the recipe flag, nor the status, nor the connection flag; while
    detection runs, the last value kept for each sensor is its reading in
    the last event. *)
Theorem last_event_is_remembered (samples : list Sample) (timestamp : Timestamp)
    (data : PerSensor JS.number) (a : App) (s : SensorId) :
  let r := handleAll (samples ++ [(timestamp, data)]) a in
  sensorData (fst r) = data
  /\ recipe (fst r) = recipe a
  /\ isRunningRecipe (fst r) = isRunningRecipe a
  /\ status (fst r) = status a
  /\ isConnected (fst r) = isConnected a
  /\ (isFlickerDetectionRunning a = true ->
      get (lastValues (fst r)) s = Some (get data s)).
Proof.
  intros r. unfold r. rewrite handleAll_app. cbn [fst].
  set (a1 := fst (handleAll samples a)).
  pose proof (handleAll_frame samples a) as F. cbv zeta in F. fold a1 in F.
  destruct F as [F1 [F2 [F3 F4]]].
  assert (E : fst (handleAll [(timestamp, data)] a1)
              = fst (handleSensorData timestamp data a1)).
  { cbn [handleAll]. now destruct (handleSensorData timestamp data a1). }
  rewrite E.
  pose proof (handleSensorData_frame timestamp data a1) as G. cbv zeta in G.
  destruct G as [G0 [G1 [G2 [G3 G4]]]].
  rewrite G0, G1, G2, G3, G4, F1, F2, F3, F4.
  repeat (split; [reflexivity|]).
  intros Hrun.
  assert (Hrun1 : isFlickerDetectionRunning a1 = true)
    by (unfold a1; now rewrite handleAll_running).
  destruct (handleSensorData_view timestamp data a1 s Hrun1) as [V _].
  pose proof (stepChannel_last timestamp (get data s) (view s a1)) as Hl.
  rewrite <- V in Hl. exact Hl.
Qed.

Lemma stepChannel_origin (timestamp : Timestamp) (v : JS.number) (c : Channel1) :
  let r := stepChannel timestamp v c in
  (forall e, In e (snd r) ->
             exists f0, snd (fst c) = Some f0 /\ startTime e = startTime f0)
  /\ (forall f1, snd (fst (fst r)) = Some f1 ->
                 (exists f0, snd (fst c) = Some f0 /\ startTime f1 = startTime f0)
                 \/ startTime f1 = timestamp).
Proof.
  destruct c as [[last active] count]. cbv zeta. cbn [fst snd].
  destruct last as [p|].
  2:{ unfold stepChannel. cbn [fst snd]. split; [intros e []|].
      intros f1 E. left. now exists f1. }
  destruct (startsFlicker (percentChangeOf p v) active) eqn:Hs.
  - rewrite (stepChannel_opening _ _ _ _ _ Hs). cbn [fst snd].
    split; [intros e []|]. intros f1 E. inversion E. now right.
  - destruct active as [f0|].
    + rewrite stepChannel_carried. cbv zeta.
      destruct (PrimFloat.ltb _ _); cbn [fst snd].
      * split; [|discriminate]. intros e [E|[]]. subst e. now exists f0.
      * split; [intros e []|]. intros f1 E. inversion E. left. now exists f0.
    + rewrite (stepChannel_quiet _ _ _ _ Hs). cbn [fst snd].
      split; [intros e []|discriminate].
Qed.

(** Where the rows of a stream come from: a row either ends a flicker that
    was in progress before the stream, or starts at one event of the stream
    and ends at a later one. *)
Lemma runChannel_rows (s : SensorId) (samples : list Sample) (c : Channel1)
    (fd : FlickerData.t) :
  In fd (snd (runChannel s samples c)) ->
  (exists f0 l1 d l3,
      snd (fst c) = Some f0 /\ FlickerData.startTime fd = startTime f0
      /\ samples = l1 ++ (FlickerData.endTime fd, d) :: l3)
  \/ (exists l1 d_i l2 d_j l3,
         samples = l1 ++ (FlickerData.startTime fd, d_i)
                      :: l2 ++ (FlickerData.endTime fd, d_j) :: l3).
Proof.
  revert c. induction samples as [|[t d] rest IH]; intros c Hin; [destruct Hin|].
  cbn [runChannel] in Hin.
  destruct (stepChannel_origin t (get d s) c) as [Hended Hactive]. cbv zeta in *.
  destruct (stepChannel t (get d s) c) as [c1 ended].
  specialize (IH c1).
  destruct (runChannel s rest c1) as [c2 out]. cbn [fst snd] in *.
  apply in_app_or in Hin. destruct Hin as [Hin|Hin].
  - apply in_map_iff in Hin. destruct Hin as [e [E He]]. subst fd.
    destruct (Hended e He) as [f0 [Hc Hst]].
    left. exists f0, [], d, rest. repeat split; assumption.
  - destruct (IH Hin) as [[f1 [l1 [d' [l3 [Hc1 [Hst Hsplit]]]]]]
                         |[l1 [d_i [l2 [d_j [l3 Hsplit]]]]]].
    + destruct (Hactive f1 Hc1) as [[f0 [Hc Hst0]]|Hnow].
      * left. exists f0, ((t, d) :: l1), d', l3.
        repeat split; [assumption|congruence|now rewrite Hsplit].
      * right. exists [], d, l1, d', l3. cbn [app].
        rewrite Hsplit, Hst, Hnow. reflexivity.
    + right. exists ((t, d) :: l1), d_i, l2, d_j, l3. now rewrite Hsplit.
Qed.

Lemma flickersOf_sensor (s : SensorId) (calls : list LogCall) (fd : FlickerData.t) :
  In fd (flickersOf s calls) -> FlickerData.sensor fd = s.
Proof.
  induction calls as [|c calls IH]; [intros []|].
  destruct c as [fd'|]; cbn [flickersOf]; [|exact IH].
  destruct (SensorId_eqb (FlickerData.sensor fd') s) eqn:E; [|exact IH].
  intros [H|H]; [|now apply IH]. subst fd'.
  destruct (FlickerData.sensor fd), s; try reflexivity; discriminate.
Qed.

(** X6. Every flicker row of a session belongs to that session: for each row
    logged for a sensor since the session started, the stream of events has
    an event at the row's start instant and a later event at its end
    instant. A flicker is never logged with instants from before the
    session, and never ends before it starts in the order of the events. *)
Theorem flicker_rows_belong_to_the_session (a0 : App) (samples : list Sample)
    (s : SensorId) (fd : FlickerData.t) :
  In fd (flickersOf s
           (snd (handleAll samples
                   (resetFlickerDetection (setIsFlickerDetectionRunning true a0))))) ->
  FlickerData.sensor fd = s
  /\ exists l1 d_i l2 d_j l3,
       samples = l1 ++ (FlickerData.startTime fd, d_i)
                    :: l2 ++ (FlickerData.endTime fd, d_j) :: l3.
Proof.
  intros Hin. split; [exact (flickersOf_sensor _ _ _ Hin)|].
  destruct (handleAll_view samples
              (resetFlickerDetection (setIsFlickerDetectionRunning true a0)) s eq_refl)
    as [_ L].
  rewrite L, view_session_start in Hin.
  destruct (runChannel_rows s samples _ fd Hin)
    as [[f0 [l1 [d [l3 [Hc _]]]]]|H]; [discriminate|exact H].
Qed.

Lemma flicker_rows_belong_to_the_session_witness :
  let samples := [(0, mkPerSensor 100%float 0%float);
                  (100, mkPerSensor 80%float 0%float);
                  (200, mkPerSensor 100%float 0%float)] in
  let fd := flickerDataOf sensor1 200 (mkFlicker 100 100%float 80%float 25%float) in
  FlickerData.sensor fd = sensor1
  /\ exists l1 d_i l2 d_j l3,
       samples = l1 ++ (FlickerData.startTime fd, d_i)
                    :: l2 ++ (FlickerData.endTime fd, d_j) :: l3.
Proof.
  intros samples fd.
  apply (flicker_rows_belong_to_the_session initialApp samples sensor1 fd).
  vm_compute. left. reflexivity.
Defined.


(** ** The order of the numbers *)

Lemma SFleb_rank (x y : spec_float) :
  x <> S754_nan -> y <> S754_nan ->
  (SFleb x y = true <-> lexle (rank x) (rank y)).
Proof.
  intros Hx Hy. unfold SFleb, lexle.
  destruct x as [sx|sx| |sx mx ex], y as [sy|sy| |sy my ey];
    try congruence;
    try (destruct sx); try (destruct sy); cbn [SFcompare rank fst snd];
    try (split; [intros _; lia|reflexivity]);
    try (split; [discriminate|intros Hle; exfalso; lia]).
  - change (PosDef.Pos.compare_cont Eq mx my) with (Pos.compare mx my).
    destruct (Z.compare_spec ex ey), (Pos.compare_spec mx my); cbn [CompOpp];
      split; intros Hle; try reflexivity; try discriminate; try lia.
  - change (PosDef.Pos.compare_cont Eq mx my) with (Pos.compare mx my).
    destruct (Z.compare_spec ex ey), (Pos.compare_spec mx my);
      split; intros Hle; try reflexivity; try discriminate; try lia.
Qed.

Lemma SFleb_not_nan (x y : spec_float) :
  SFleb x y = true -> x <> S754_nan /\ y <> S754_nan.
Proof.
  unfold SFleb. destruct x as [sx|sx| |sx mx ex], y as [sy|sy| |sy my ey];
    cbn [SFcompare]; intros H; split; congruence.
Qed.

Lemma leb_trans (a b c : float) :
  PrimFloat.leb a b = true -> PrimFloat.leb b c = true -> PrimFloat.leb a c = true.
Proof.
  rewrite !leb_spec. intros Hab Hbc.
  destruct (SFleb_not_nan _ _ Hab) as [Ha Hb].
  destruct (SFleb_not_nan _ _ Hbc) as [_ Hc].
  apply (SFleb_rank _ _ Ha Hb) in Hab. apply (SFleb_rank _ _ Hb Hc) in Hbc.
  apply (SFleb_rank _ _ Ha Hc). unfold lexle in *. lia.
Qed.

Lemma not_nan_spec (v : float) :
  PrimFloat.is_nan v = false -> Prim2SF v <> S754_nan.
Proof.
  intros H E. apply is_nan_spec in E. congruence.
Qed.

Lemma leb_refl (v : float) : PrimFloat.is_nan v = false -> PrimFloat.leb v v = true.
Proof.
  intros H. apply not_nan_spec in H. rewrite leb_spec.
  apply (SFleb_rank _ _ H H). unfold lexle. lia.
Qed.

(** Two numbers are comparable: one is below or equal to the other. *)
Lemma leb_total (a b : float) :
  PrimFloat.is_nan a = false -> PrimFloat.is_nan b = false ->
  PrimFloat.leb a b = true \/ PrimFloat.leb b a = true.
Proof.
  intros Ha Hb. apply not_nan_spec in Ha, Hb. rewrite !leb_spec.
  destruct (SFleb_rank _ _ Ha Hb) as [_ H1]. destruct (SFleb_rank _ _ Hb Ha) as [_ H2].
  unfold lexle in *.
  destruct (rank (Prim2SF a)) as [[a1 a2] a3], (rank (Prim2SF b)) as [[b1 b2] b3].
  cbn [fst snd] in *.
  assert (D : (a1 < b1 \/ a1 = b1 /\ (a2 < b2 \/ a2 = b2 /\ a3 <= b3))
              \/ (b1 < a1 \/ b1 = a1 /\ (b2 < a2 \/ b2 = a2 /\ b3 <= a3))) by lia.
  destruct D as [D|D]; [left; now apply H1|right; now apply H2].
Qed.

Lemma ltb_leb (a b : float) : PrimFloat.ltb a b = true -> PrimFloat.leb a b = true.
Proof.
  rewrite ltb_spec, leb_spec. unfold SFltb, SFleb.
  now destruct (SFcompare (Prim2SF a) (Prim2SF b)) as [[| |]|].
Qed.

Lemma not_ltb_leb (a b : float) :
  PrimFloat.is_nan a = false -> PrimFloat.is_nan b = false ->
  PrimFloat.ltb a b = false -> PrimFloat.leb b a = true.
Proof.
  intros Ha Hb H.
  destruct (leb_total a b Ha Hb) as [L|L]; [|exact L].
  revert H L. rewrite ltb_spec, !leb_spec. unfold SFltb, SFleb.
  rewrite (SFcompare_antisym (Prim2SF a) (Prim2SF b)).
  destruct (SFcompare (Prim2SF a) (Prim2SF b)) as [[| |]|]; simpl; congruence.
Qed.

(** [Math.min] of two numbers is one of the two, and below or equal to both. *)
Lemma Math_min_spec (m v : float) :
  PrimFloat.is_nan m = false -> PrimFloat.is_nan v = false ->
  (JS.Math_min m v = m \/ JS.Math_min m v = v)
  /\ PrimFloat.leb (JS.Math_min m v) m = true
  /\ PrimFloat.leb (JS.Math_min m v) v = true.
Proof.
  intros Hm Hv. unfold JS.Math_min. rewrite Hm, Hv. cbn [orb].
  destruct (PrimFloat.ltb m v) eqn:Hmv.
  - split; [now left|]. split; [now apply leb_refl|now apply ltb_leb].
  - destruct (PrimFloat.ltb v m) eqn:Hvm.
    + split; [now right|]. split; [now apply ltb_leb|now apply leb_refl].
    + pose proof (not_ltb_leb m v Hm Hv Hmv) as Lvm.
      pose proof (not_ltb_leb v m Hv Hm Hvm) as Lmv.
      destruct (PrimFloat.classify m);
        (split; [tauto|]); (split; [try now apply leb_refl|try now apply leb_refl]);
        assumption.
Qed.

Lemma Least_one (v : JS.number) : PrimFloat.is_nan v = false -> Least v [v].
Proof.
  intros H. split; [exact H|]. split; [now left|].
  constructor; [now apply leb_refl|constructor].
Qed.

Lemma Least_next (m v : JS.number) (window : list JS.number) :
  Least m window -> PrimFloat.is_nan v = false ->
  Least (JS.Math_min m v) (window ++ [v]).
Proof.
  intros [Hm [Hin Hall]] Hv.
  destruct (Math_min_spec m v Hm Hv) as [Hor [Lm Lv]].
  split; [destruct Hor as [E|E]; rewrite E; assumption|].
  split.
  - apply in_or_app. destruct Hor as [E|E]; rewrite E; [now left|right; now left].
  - apply Forall_app. split.
    + eapply Forall_impl; [|exact Hall]. intros w Hw. cbv beta in Hw.
      exact (leb_trans _ _ _ Lm Hw).
    + constructor; [exact Lv|constructor].
Qed.

(** ** The minimum that is logged *)

Lemma stepChannel_minimum (timestamp : Timestamp) (v : JS.number) (c : Channel1) :
  PrimFloat.is_nan v = false ->
  (fst (fst c) = None -> snd (fst c) = None) ->
  let r := stepChannel timestamp v c in
  (forall e, In e (snd r) ->
             exists f0, snd (fst c) = Some f0 /\ startTime e = startTime f0
                        /\ minValue e = JS.Math_min (minValue f0) v)
  /\ (forall f1, snd (fst (fst r)) = Some f1 ->
                 (exists f0, snd (fst c) = Some f0 /\ startTime f1 = startTime f0
                             /\ minValue f1 = JS.Math_min (minValue f0) v)
                 \/ (snd (fst c) = None /\ startTime f1 = timestamp /\ minValue f1 = v)).
Proof.
  intros Hv Hc. destruct c as [[last active] count]. cbv zeta. cbn [fst snd] in *.
  destruct last as [p|].
  2:{ rewrite (Hc eq_refl). unfold stepChannel. cbn [fst snd].
      split; [intros e []|discriminate]. }
  destruct (startsFlicker (percentChangeOf p v) active) eqn:Hs.
  - rewrite (stepChannel_opening _ _ _ _ _ Hs). cbn [fst snd].
    apply startsFlicker_true in Hs. destruct Hs as [_ Hs].
    split; [intros e []|]. intros f1 E. inversion E. right.
    cbn [startTime minValue updateFlicker]. rewrite (Math_min_same v Hv). auto.
  - destruct active as [f0|].
    + rewrite stepChannel_carried. cbv zeta.
      destruct (PrimFloat.ltb _ _); cbn [fst snd].
      * split; [|discriminate]. intros e [E|[]]. subst e. exists f0. auto.
      * split; [intros e []|]. intros f1 E. inversion E. left. exists f0. auto.
    + rewrite (stepChannel_quiet _ _ _ _ Hs). cbn [fst snd].
      split; [intros e []|discriminate].
Qed.

(** The rows of a stream of readings that are numbers: the minimum of a row
    is the least reading of its flicker, taken from the reading that opened
    it (or from [window], what a flicker already in progress has seen) to
    the reading that ended it. *)
Lemma runChannel_least (s : SensorId) (samples : list Sample) (c : Channel1)
    (window : list JS.number) (fd : FlickerData.t) :
  Forall (fun sample : Sample => PrimFloat.is_nan (get (snd sample) s) = false) samples ->
  (fst (fst c) = None -> snd (fst c) = None) ->
  (forall f0, snd (fst c) = Some f0 -> Least (minValue f0) window) ->
  In fd (snd (runChannel s samples c)) ->
  exists m,
    FlickerData.minimumValue fd = JS.toFixed 3 m
    /\ ((exists f0 l1 d l3,
            snd (fst c) = Some f0 /\ FlickerData.startTime fd = startTime f0
            /\ samples = l1 ++ (FlickerData.endTime fd, d) :: l3
            /\ Least m (window
                         ++ map snd (readingsOf s (l1 ++ [(FlickerData.endTime fd, d)]))))
        \/ (exists l1 d_i l2 d_j l3,
               samples = l1 ++ (FlickerData.startTime fd, d_i)
                            :: l2 ++ (FlickerData.endTime fd, d_j) :: l3
               /\ Least m (map snd (readingsOf s
                              ((FlickerData.startTime fd, d_i)
                                 :: l2 ++ [(FlickerData.endTime fd, d_j)]))))).
Proof.
  revert c window.
  induction samples as [|[t d] rest IH]; intros c window Hnan Hc Hwin Hin;
    [destruct Hin|].
  inversion Hnan as [|x l Hv Hrest]; subst x l. cbn [snd] in Hv.
  cbn [runChannel] in Hin.
  destruct (stepChannel_minimum t (get d s) c Hv Hc) as [Hended Hactive].
  pose proof (stepChannel_last t (get d s) c) as Hlast.
  cbv zeta in *.
  destruct (stepChannel t (get d s) c) as [c1 ended].
  destruct (runChannel s rest c1) as [c2 out] eqn:Hrun. cbn [fst snd] in *.
  apply in_app_or in Hin. destruct Hin as [Hin|Hin].
  - apply in_map_iff in Hin. destruct Hin as [e [E He]]. subst fd.
    destruct (Hended e He) as [f0 [Hf0 [Hst Hmin]]].
    exists (minValue e). split; [reflexivity|]. left.
    exists f0, [], d, rest. cbn [flickerDataOf FlickerData.startTime FlickerData.endTime].
    split; [exact Hf0|]. split; [exact Hst|]. split; [reflexivity|].
    cbn [app readingsOf map fst snd]. rewrite Hmin.
    apply Least_next; [now apply Hwin|exact Hv].
  - assert (Hsome : fst (fst c1) <> None) by (rewrite Hlast; discriminate).
    assert (Hc1 : fst (fst c1) = None -> snd (fst c1) = None)
      by (intros E; destruct (Hsome E)).
    clear Hsome.
    destruct (snd (fst c1)) as [f1|] eqn:Hact1 in Hactive.
    + destruct (Hactive f1 eq_refl) as [[f0 [Hf0 [Hst Hmin]]]|[Hnone [Hst Hmin]]].
      * assert (Hwin1 : forall f, snd (fst c1) = Some f ->
                                  Least (minValue f) (window ++ [get d s])).
        { intros f Ef. rewrite Hact1 in Ef. inversion Ef; subst f. rewrite Hmin.
          apply Least_next; [now apply Hwin|exact Hv]. }
        specialize (IH c1 (window ++ [get d s]) Hrest Hc1 Hwin1).
        rewrite Hrun in IH. destruct (IH Hin) as [m [Hm [Hleft|Hright]]].
        -- destruct Hleft as [f1' [l1 [d' [l3 [Ef1 [Hst' [Hsplit Hleast]]]]]]].
           exists m. split; [exact Hm|]. left.
           exists f0, ((t, d) :: l1), d', l3.
           rewrite Hact1 in Ef1. inversion Ef1; subst f1'.
           split; [assumption|]. split; [congruence|]. split; [now rewrite Hsplit|].
           cbn [app readingsOf map snd fst] in Hleast |- *.
           now rewrite <- app_assoc in Hleast.
        -- destruct Hright as [l1 [d_i [l2 [d_j [l3 [Hsplit Hleast]]]]]].
           exists m. split; [exact Hm|]. right.
           exists ((t, d) :: l1), d_i, l2, d_j, l3. split; [now rewrite Hsplit|exact Hleast].
      * assert (Hwin1 : forall f, snd (fst c1) = Some f -> Least (minValue f) [get d s]).
        { intros f Ef. rewrite Hact1 in Ef. inversion Ef; subst f. rewrite Hmin.
          now apply Least_one. }
        specialize (IH c1 [get d s] Hrest Hc1 Hwin1).
        rewrite Hrun in IH. destruct (IH Hin) as [m [Hm [Hleft|Hright]]].
        -- destruct Hleft as [f1' [l1 [d' [l3 [Ef1 [Hst' [Hsplit Hleast]]]]]]].
           exists m. split; [exact Hm|]. right.
           rewrite Hact1 in Ef1. inversion Ef1; subst f1'.
           exists [], d, l1, d', l3. cbn [app].
           split; [rewrite Hsplit, Hst', Hst; reflexivity|].
           rewrite Hst', Hst. exact Hleast.
        -- destruct Hright as [l1 [d_i [l2 [d_j [l3 [Hsplit Hleast]]]]]].
           exists m. split; [exact Hm|]. right.
           exists ((t, d) :: l1), d_i, l2, d_j, l3. split; [now rewrite Hsplit|exact Hleast].
    + assert (Hwin1 : forall f, snd (fst c1) = Some f -> Least (minValue f) [])
        by (intros f Ef; rewrite Hact1 in Ef; discriminate).
      specialize (IH c1 [] Hrest Hc1 Hwin1).
      rewrite Hrun in IH. destruct (IH Hin) as [m [Hm [Hleft|Hright]]].
      * destruct Hleft as [f1' [l1 [d' [l3 [Ef1 _]]]]]. rewrite Hact1 in Ef1.
        discriminate.
      * destruct Hright as [l1 [d_i [l2 [d_j [l3 [Hsplit Hleast]]]]]].
        exists m. split; [exact Hm|]. right.
        exists ((t, d) :: l1), d_i, l2, d_j, l3. split; [now rewrite Hsplit|exact Hleast].
Qed.

(** X7. The minimum that is logged is the least reading of the flicker. In
    a session where a sensor only reads numbers (main.js forwards no NaN),
    every row logged for it starts at one event and ends at a later one, as
    in X6, and its [minimumValue] is the three-decimal text of a number [m]
    that is one of the readings from the opening event to the closing event,
    both included, and is below or equal to each of them. *)
Theorem logged_minimum_is_the_least_reading (a0 : App) (samples : list Sample)
    (s : SensorId) (fd : FlickerData.t) :
  Forall (fun sample : Sample => PrimFloat.is_nan (get (snd sample) s) = false) samples ->
  In fd (flickersOf s
           (snd (handleAll samples
                   (resetFlickerDetection (setIsFlickerDetectionRunning true a0))))) ->
  exists l1 d_i l2 d_j l3 m,
    samples = l1 ++ (FlickerData.startTime fd, d_i)
                 :: l2 ++ (FlickerData.endTime fd, d_j) :: l3
    /\ FlickerData.minimumValue fd = JS.toFixed 3 m
    /\ In m (map (fun sample : Sample => get (snd sample) s)
                 ((FlickerData.startTime fd, d_i)
                    :: l2 ++ [(FlickerData.endTime fd, d_j)]))
    /\ Forall (fun sample : Sample => PrimFloat.leb m (get (snd sample) s) = true)
              ((FlickerData.startTime fd, d_i) :: l2 ++ [(FlickerData.endTime fd, d_j)]).
Proof.
  intros Hnan Hin.
  destruct (handleAll_view samples
              (resetFlickerDetection (setIsFlickerDetectionRunning true a0)) s eq_refl)
    as [_ L].
  rewrite L, view_session_start in Hin.
  destruct (runChannel_least s samples (None, None, 0) [] fd Hnan)
    as [m [Hm [Hleft|Hright]]]; try assumption; try reflexivity.
  - intros f0 E. discriminate.
  - destruct Hleft as [f0 [l1 [d [l3 [E _]]]]]. discriminate.
  - destruct Hright as [l1 [d_i [l2 [d_j [l3 [Hsplit [_ [Hmem Hall]]]]]]]].
    exists l1, d_i, l2, d_j, l3, m.
    split; [exact Hsplit|]. split; [exact Hm|].
    unfold readingsOf in Hmem, Hall. rewrite map_map in Hmem, Hall.
    split; [exact Hmem|].
    apply Forall_map in Hall. exact Hall.
Qed.

(** Sensor1 dips from 100 to 50, then to 25, and returns. *)
Lemma logged_minimum_is_the_least_reading_witness :
  let samples := [(0, mkPerSensor 100%float 0%float);
                  (100, mkPerSensor 50%float 0%float);
                  (200, mkPerSensor 25%float 0%float);
                  (300, mkPerSensor 100%float 0%float)] in
  let fd := flickerDataOf sensor1 300 (mkFlicker 100 100%float 25%float 300%float) in
  exists l1 d_i l2 d_j l3 m,
    samples = l1 ++ (FlickerData.startTime fd, d_i)
                 :: l2 ++ (FlickerData.endTime fd, d_j) :: l3
    /\ FlickerData.minimumValue fd = JS.toFixed 3 m
    /\ In m (map (fun sample : Sample => get (snd sample) sensor1)
                 ((FlickerData.startTime fd, d_i)
                    :: l2 ++ [(FlickerData.endTime fd, d_j)]))
    /\ Forall (fun sample : Sample =>
                 PrimFloat.leb m (get (snd sample) sensor1) = true)
              ((FlickerData.startTime fd, d_i) :: l2 ++ [(FlickerData.endTime fd, d_j)]).
Proof.
  intros samples fd.
  apply (logged_minimum_is_the_least_reading initialApp samples sensor1 fd).
  - repeat constructor.
  - vm_compute. left. reflexivity.
Defined.


(* ================================================================== *)
(** * Further properties of the recipe runner *)

Lemma invoke_app (channel : Channel) (w : World) :
  app (snd (invoke channel w)) = app w.
Proof.
  pose proof (invoke_spec channel w) as H.
  destruct (invoke channel w) as [[result|message] w1]; cbn [snd]; tauto.
Qed.

(** Whether it returns or throws, a step of the loop leaves the recipe and
    the connection flag of the component alone. *)
Lemma tryStep_frame (running : bool) (step : Step) (w : World) :
  recipe (app (snd (tryStep running step w))) = recipe (app w)
  /\ isConnected (app (snd (tryStep running step w))) = isConnected (app w).
Proof.
  assert (Hsend : forall command,
             recipe (app (snd (((invoke (send_command command) ;;; ret tt)
                                  ;;; sleepFor 100) w))) = recipe (app w)
             /\ isConnected (app (snd (((invoke (send_command command) ;;; ret tt)
                                          ;;; sleepFor 100) w))) = isConnected (app w)).
  { intros command. unfold bind, ret.
    pose proof (invoke_app (send_command command) w) as H.
    destruct (invoke (send_command command) w) as [[result|message] w1];
      cbn in H |- *; now rewrite H. }
  assert (Htoggle : forall r,
             recipe (app (snd ((toggleFlickerDetection r ;;; sleepFor 100) w)))
               = recipe (app w)
             /\ isConnected (app (snd ((toggleFlickerDetection r ;;; sleepFor 100) w)))
                = isConnected (app w)).
  { intros r. unfold toggleFlickerDetection, bind.
    destruct r; cbn [negb].
    - pose proof (invoke_app stop_flicker_detection w) as H.
      destruct (invoke stop_flicker_detection w) as [[result|message] w1];
        [destruct (success result)|]; cbn in H |- *; now rewrite H.
    - pose proof (invoke_app start_flicker_detection w) as H.
      destruct (invoke start_flicker_detection w) as [[result|message] w1];
        [destruct (success result)|]; cbn in H |- *; now rewrite H. }
  unfold tryStep. destruct step; cbn [switchStep]; try apply Hsend.
  - destruct running; cbn [negb]; [cbn; tauto|apply Htoggle].
  - destruct running; [apply Htoggle|cbn; tauto].
  - cbn. tauto.
Qed.

Lemma forSteps_frame (running : bool) (steps : list Step) (w : World) :
  recipe (app (forSteps running steps w)) = recipe (app w)
  /\ isConnected (app (forSteps running steps w)) = isConnected (app w).
Proof.
  revert w. induction steps as [|step steps IH]; intros w; cbn [forSteps]; [tauto|].
  destruct (tryStep_frame running step w) as [F1 F2].
  destruct (tryStep running step w) as [[[]|message] w1]; cbn [snd] in F1, F2.
  - destruct (IH w1) as [I1 I2]. now rewrite I1, I2.
  - cbn. tauto.
Qed.

Lemma stepShape_calls (running : bool) (step : Step) (channel : Channel) :
  In (called channel) (stepShape running step) ->
  In (called channel) (switchShape running step).
Proof.
  unfold stepShape. intros H. apply in_app_or in H.
  destruct H as [H|[H|[]]]; [exact H|discriminate].
Qed.

Lemma switchShape_toggles (running : bool) (step : Step) :
  ~ In (called (if running then start_flicker_detection else stop_flicker_detection))
       (switchShape running step).
Proof.
  destruct step, running; cbn; intros H;
    repeat (destruct H as [H|H]; [discriminate|]); exact H.
Qed.

(** X8. A run tests the [isFlickerDetectionRunning] of the render in which
    Run Recipe was clicked, for all of its steps. So a run started while
    detection is off never calls [stop-flicker-detection], whatever its
    [endFlicker] steps and even after its own [startFlicker] step has
    started detection; and a run started while detection is on never calls
    [start-flicker-detection]. The run never changes the recipe or the
    connection flag, and it ends with [isRunningRecipe] false. *)
Theorem run_keeps_the_flag_it_started_with (w : World) :
  let running := isFlickerDetectionRunning (app w) in
  (exists did,
      map shapeOf (trace (runRecipe w)) = map shapeOf (trace w) ++ did
      /\ ~ In (called (if running then start_flicker_detection
                       else stop_flicker_detection)) did)
  /\ recipe (app (runRecipe w)) = recipe (app w)
  /\ isConnected (app (runRecipe w)) = isConnected (app w)
  /\ isRunningRecipe (app (runRecipe w)) = false.
Proof.
  intros running. split; [|split; [|split]].
  - unfold runRecipe. fold running.
    destruct (forSteps_shape running (recipe (app w))
                (snd (update (setIsRunningRecipe true) w)))
      as [done [rest [_ [T _]]]].
    eexists. split; [exact T|].
    intros H. apply in_app_or in H. destruct H as [H|H].
    + apply in_flat_map in H. destruct H as [step [_ H]].
      apply stepShape_calls in H. exact (switchShape_toggles running step H).
    + destruct rest as [|step rest']; [destruct H|].
      exact (switchShape_toggles running step H).
  - unfold runRecipe. cbn [update snd app]. 
    destruct (forSteps_frame (isFlickerDetectionRunning (app w)) (recipe (app w))
                (mkWorld (setIsRunningRecipe true (app w)) (main w) (faults w) (trace w)))
      as [F _].
    exact F.
  - unfold runRecipe. cbn [update snd app].
    destruct (forSteps_frame (isFlickerDetectionRunning (app w)) (recipe (app w))
                (mkWorld (setIsRunningRecipe true (app w)) (main w) (faults w) (trace w)))
      as [_ F].
    exact F.
  - reflexivity.
Qed.

Lemma leastTime_app (l1 l2 : list Shape) :
  leastTime (l1 ++ l2) = leastTime l1 + leastTime l2.
Proof.
  induction l1 as [|x l1 IH]; [reflexivity|].
  destruct x; simpl; rewrite IH; lia.
Qed.

Lemma leastTime_step (running : bool) (step : Step) :
  leastTime (stepShape running step) = leastStepTime step.
Proof. destruct step, running; cbn; lia. Qed.

Lemma leastTime_steps (running : bool) (steps : list Step) :
  leastTime (flat_map (stepShape running) steps)
    = fold_right (fun step total => leastStepTime step + total) 0 steps.
Proof.
  induction steps as [|step steps IH]; [reflexivity|].
  cbn [flat_map fold_right]. now rewrite leastTime_app, leastTime_step, IH.
Qed.

Lemma leastStepTime_pauses (steps : list Step) :
  100 * Z.of_nat (List.length steps)
    <= fold_right (fun step total => leastStepTime step + total) 0 steps.
Proof.
  induction steps as [|step steps IH]; [cbn; lia|].
  cbn [fold_right List.length]. rewrite Nat2Z.inj_succ.
  assert (100 <= leastStepTime step) by (destruct step; cbn; lia). lia.
Qed.

(** X9. How long a recipe takes at least. When no call is rejected, what a
    run does takes no less than the sum, over all the steps of the recipe,
    of 100 ms and, for a delay step, of its delay; in particular no less
    than 100 ms for each step. *)
Theorem recipe_takes_its_pauses_and_delays (w : World) :
  noRejection w = true ->
  exists did,
    map shapeOf (trace (runRecipe w)) = map shapeOf (trace w) ++ did
    /\ leastTime did
       = fold_right (fun step total => leastStepTime step + total) 0 (recipe (app w))
    /\ 100 * Z.of_nat (List.length (recipe (app w))) <= leastTime did.
Proof.
  intros Hno. unfold runRecipe.
  destruct (forSteps_shape (isFlickerDetectionRunning (app w)) (recipe (app w))
              (snd (update (setIsRunningRecipe true) w)))
    as [done [rest [E [T [_ [N _]]]]]].
  rewrite (N Hno) in E, T. rewrite app_nil_r in E, T. subst done.
  eexists. split; [exact T|].
  rewrite leastTime_steps.
  split; [reflexivity|]. apply leastStepTime_pauses.
Qed.

(** Scenario C again: five steps, one of them a delay of 5 s. *)
Lemma recipe_takes_its_pauses_and_delays_witness :
  let w := mkWorld (setRecipe [connectUSB; startFlicker; delay 5; endFlicker;
                               disconnectUSB] initialApp)
                   (Main.mk true true true false false []) [] [] in
  exists did,
    map shapeOf (trace (runRecipe w)) = map shapeOf (trace w) ++ did
    /\ leastTime did = 5500
    /\ 500 <= leastTime did.
Proof.
  intros w.
  destruct (recipe_takes_its_pauses_and_delays w eq_refl) as [did [T [L B]]].
  exists did. split; [exact T|]. split; [exact L|exact B].
Defined.


Ltac step_cases w step running :=
  let a := fresh "a" in let m := fresh "m" in
  let fs := fresh "fs" in let tr := fresh "tr" in
  destruct w as [a m fs tr];
  destruct m as [isOpen interval armed active files sent];
  cbn [main app faults trace Main.serialPortOpen Main.dataInterval Main.polling
       Main.written Main.isFlickerDetectionActive] in *;
  subst;
  destruct step, running.

Lemma tryStep_wire (running : bool) (step : Step) (w : World) :
  Main.serialPortOpen (main w) = true ->
  Forall (eq no_fault) (faults w) ->
  exists w1,
    tryStep running step w = (Returned tt, w1)
    /\ Main.serialPortOpen (main w1) = true
    /\ Forall (eq no_fault) (faults w1)
    /\ Main.written (main w1) = Main.written (main w) ++ wireOf step.
Proof.
  intros Hopen Hfaults.
  assert (Htl : Forall (eq no_fault) (match faults w with _ :: r => r | [] => [] end))
    by (destruct Hfaults; [constructor|assumption]).
  assert (Hhd : match faults w with f :: _ => f | [] => no_fault end = no_fault)
    by (destruct Hfaults; [reflexivity|congruence]).
  step_cases w step running;
    unfold tryStep, switchStep, toggleFlickerDetection, bind, invoke; cbn [negb];
    cbn [faults main app trace]; try rewrite Hhd; cbn;
    eexists; (split; [reflexivity|]); cbn; rewrite ?app_nil_r; auto.
Qed.

(** X10. What goes out on the wire. With the serial port open and nothing
    going wrong, a run writes to the port, in the order of the recipe, one
    line for each [connectUSB], [disconnectUSB], [sleep] and [wake] step,
    the letter c, d, s or w followed by a newline, and nothing for the other
    steps; the port is left open. *)
Theorem commands_go_out_in_order (w : World) :
  Main.serialPortOpen (main w) = true ->
  Forall (eq no_fault) (faults w) ->
  Main.written (main (runRecipe w))
    = Main.written (main w) ++ flat_map wireOf (recipe (app w))
  /\ Main.serialPortOpen (main (runRecipe w)) = true.
Proof.
  intros Hopen Hfaults. unfold runRecipe. cbn [update snd main app].
  set (running := isFlickerDetectionRunning (app w)).
  assert (Hgen : forall steps w0,
             Main.serialPortOpen (main w0) = true ->
             Forall (eq no_fault) (faults w0) ->
             Main.written (main (forSteps running steps w0))
               = Main.written (main w0) ++ flat_map wireOf steps
             /\ Main.serialPortOpen (main (forSteps running steps w0)) = true).
  { induction steps as [|step steps IH]; intros w0 H0 F0; cbn [forSteps flat_map].
    - now rewrite app_nil_r.
    - destruct (tryStep_wire running step w0 H0 F0) as [w1 [E [H1 [F1 W1]]]].
      rewrite E. destruct (IH w1 H1 F1) as [I1 I2].
      rewrite I1, W1, app_assoc. auto. }
  exact (Hgen (recipe (app w))
              (mkWorld (setIsRunningRecipe true (app w)) (main w) (faults w) (trace w))
              Hopen Hfaults).
Qed.

Lemma commands_go_out_in_order_witness :
  let w := mkWorld (setRecipe [connectUSB; startFlicker; delay 5; wake; endFlicker;
                               disconnectUSB] initialApp)
                   (Main.mk true true true false false []) [] [] in
  Main.written (main (runRecipe w))
    = [("c" ++ String "010"%char EmptyString)%string;
       ("w" ++ String "010"%char EmptyString)%string;
       ("d" ++ String "010"%char EmptyString)%string].
Proof.
  intros w.
  apply (commands_go_out_in_order w); [reflexivity|constructor].
Defined.

Lemma noRejection_cases (w : World) :
  noRejection w = true ->
  (forall message,
      match faults w with f :: _ => f | [] => no_fault end <> ipc_rejects message)
  /\ forallb (fun f => negb (rejects f))
             (match faults w with _ :: r => r | [] => [] end) = true.
Proof.
  unfold noRejection. destruct (faults w) as [|f fs]; cbn [forallb].
  - intros _. split; [discriminate|reflexivity].
  - intros H. apply andb_prop in H. destruct H as [Hf Hfs].
    split; [|exact Hfs]. intros message E. subst f. discriminate.
Qed.

Lemma tryStep_closed (running : bool) (step : Step) (w : World) :
  Main.serialPortOpen (main w) = false ->
  noRejection w = true ->
  exists w1 did,
    tryStep running step w = (Returned tt, w1)
    /\ Main.serialPortOpen (main w1) = false
    /\ noRejection w1 = true
    /\ Main.written (main w1) = Main.written (main w)
    /\ (isFlickerDetectionRunning (app w1) = true ->
        isFlickerDetectionRunning (app w) = true)
    /\ (Main.isFlickerDetectionActive (main w1) = true ->
        Main.isFlickerDetectionActive (main w) = true)
    /\ trace w1 = trace w ++ did
    /\ Forall refusedWhenClosed did.
Proof.
  intros Hclosed Hno.
  destruct (noRejection_cases w Hno) as [Hhd Htl].
  unfold noRejection.
  step_cases w step running;
    unfold tryStep, switchStep, toggleFlickerDetection, bind, invoke; cbn [negb];
    cbn [faults main app trace] in *;
    destruct (match fs with f :: _ => f | [] => no_fault end) eqn:Ef;
    try (exfalso; eapply Hhd; reflexivity);
    cbn; eexists; eexists;
    (split; [reflexivity|]); cbn;
    (split; [reflexivity|]); (split; [first [exact Htl|exact Hno]|]);
    (split; [reflexivity|]);
    (split; [solve [auto|intros; discriminate]|]);
    (split; [solve [auto|intros; discriminate]|]);
    (split; [rewrite <- ?app_assoc; cbn [app]; try reflexivity;
             symmetry; apply app_nil_r
            |repeat constructor]).
Qed.

(** X11. With the serial port closed a recipe reaches nothing. When the port
    is not open (and no call is rejected), a run still goes through its steps
    and ends, but every [send-command] resolves to the failure "Serial port
    is not open" and nothing is written to the port, every
    [start-flicker-detection] resolves to "Serial port is not connected",
    and detection is not started on either side: it runs after the run only
    where it ran before. *)
Theorem closed_port_reaches_nothing (w : World) :
  Main.serialPortOpen (main w) = false ->
  noRejection w = true ->
  Main.written (main (runRecipe w)) = Main.written (main w)
  /\ (isFlickerDetectionRunning (app (runRecipe w)) = true ->
      isFlickerDetectionRunning (app w) = true)
  /\ (Main.isFlickerDetectionActive (main (runRecipe w)) = true ->
      Main.isFlickerDetectionActive (main w) = true)
  /\ exists did, trace (runRecipe w) = trace w ++ did /\ Forall refusedWhenClosed did.
Proof.
  intros Hclosed Hno. unfold runRecipe. cbn [update snd main app trace].
  set (running := isFlickerDetectionRunning (app w)).
  assert (Hgen : forall steps w0,
             Main.serialPortOpen (main w0) = false ->
             noRejection w0 = true ->
             Main.written (main (forSteps running steps w0)) = Main.written (main w0)
             /\ (isFlickerDetectionRunning (app (forSteps running steps w0)) = true ->
                 isFlickerDetectionRunning (app w0) = true)
             /\ (Main.isFlickerDetectionActive (main (forSteps running steps w0)) = true ->
                 Main.isFlickerDetectionActive (main w0) = true)
             /\ exists did, trace (forSteps running steps w0) = trace w0 ++ did
                            /\ Forall refusedWhenClosed did).
  { induction steps as [|step steps IH]; intros w0 H0 N0; cbn [forSteps].
    - repeat (split; [auto|]). exists []. split; [now rewrite app_nil_r|constructor].
    - destruct (tryStep_closed running step w0 H0 N0)
        as [w1 [did [E [H1 [N1 [W1 [R1 [A1 [T1 F1]]]]]]]]].
      rewrite E. destruct (IH w1 H1 N1) as [I1 [I2 [I3 [did' [I4 I5]]]]].
      split; [congruence|]. split; [auto|]. split; [auto|].
      exists (did ++ did'). split; [now rewrite I4, T1, app_assoc|].
      apply Forall_app. split; assumption. }
  exact (Hgen (recipe (app w))
              (mkWorld (setIsRunningRecipe true (app w)) (main w) (faults w) (trace w))
              Hclosed Hno).
Qed.

Lemma closed_port_reaches_nothing_witness :
  let w := mkWorld (setRecipe [connectUSB; startFlicker; wake] initialApp)
                   (Main.mk false false false false false []) [io_error "busy"] [] in
  Main.written (main (runRecipe w)) = []
  /\ (isFlickerDetectionRunning (app (runRecipe w)) = true -> false = true).
Proof.
  intros w.
  destruct (closed_port_reaches_nothing w eq_refl eq_refl) as [H1 [H2 _]].
  split; [exact H1|exact H2].
Defined.

Lemma lastCommand_app (acc : option IpcResult) (l1 l2 : list Effect) :
  lastCommand acc (l1 ++ l2) = lastCommand (lastCommand acc l1) l2.
Proof.
  revert acc. induction l1 as [|e l1 IH]; intros acc; [reflexivity|].
  destruct e as [[command| |] [result|]|ms]; simpl; apply IH.
Qed.

Lemma tryStep_poll (running : bool) (step : Step) (w : World) (before : bool) :
  Main.serialPortOpen (main w) = true ->
  Main.dataInterval (main w) = true ->
  Main.polling (main w)
    = match lastCommand None (trace w) with
      | Some result => success result
      | None => before
      end ->
  let w1 := snd (tryStep running step w) in
  Main.serialPortOpen (main w1) = true
  /\ Main.dataInterval (main w1) = true
  /\ Main.polling (main w1)
     = match lastCommand None (trace w1) with
       | Some result => success result
       | None => before
       end.
Proof.
  intros Hopen Hint Hpoll.
  step_cases w step running;
    unfold tryStep, switchStep, toggleFlickerDetection, bind, invoke; cbn [negb];
    cbn [faults main app trace] in *;
    destruct (match fs with f :: _ => f | [] => no_fault end);
    cbn; rewrite ?lastCommand_app; cbn; auto.
Qed.

(** X12. The poll after a run. The main process polls the device every
    100 ms; [send-command] disarms that timer before it writes and arms it
    again only after a write that succeeded. So with the port open and the
    poll timer set, the poll is armed after a run exactly when the last
    command of the run that reached its handler was written successfully;
    a write error on the last command leaves the poll off. When the run
    sent no command, the poll is as it was. *)
Theorem poll_follows_the_last_command (w : World) :
  Main.serialPortOpen (main w) = true ->
  Main.dataInterval (main w) = true ->
  trace w = [] ->
  Main.polling (main (runRecipe w))
    = match lastCommand None (trace (runRecipe w)) with
      | Some result => success result
      | None => Main.polling (main w)
      end.
Proof.
  intros Hopen Hint Htrace. unfold runRecipe. cbn [update snd main app trace].
  set (running := isFlickerDetectionRunning (app w)).
  set (before := Main.polling (main w)).
  assert (Hgen : forall steps w0,
             Main.serialPortOpen (main w0) = true ->
             Main.dataInterval (main w0) = true ->
             Main.polling (main w0)
               = match lastCommand None (trace w0) with
                 | Some result => success result
                 | None => before
                 end ->
             Main.polling (main (forSteps running steps w0))
               = match lastCommand None (trace (forSteps running steps w0)) with
                 | Some result => success result
                 | None => before
                 end).
  { induction steps as [|step steps IH]; intros w0 H0 I0 P0; cbn [forSteps];
      [exact P0|].
    destruct (tryStep_poll running step w0 before H0 I0 P0) as [H1 [I1 P1]].
    destruct (tryStep running step w0) as [[[]|message] w1]; cbn [snd] in H1, I1, P1.
    - now apply IH.
    - exact P1. }
  apply (Hgen (recipe (app w))
              (mkWorld (setIsRunningRecipe true (app w)) (main w) (faults w) (trace w))
              Hopen Hint).
  cbn [main trace]. rewrite Htrace. reflexivity.
Qed.

(** The write of the last command fails: the poll is off afterwards. *)
Lemma poll_follows_the_last_command_witness :
  let w := mkWorld (setRecipe [connectUSB; wake] initialApp)
                   (Main.mk true true true false false [])
                   [no_fault; io_error "write failed"] [] in
  Main.polling (main (runRecipe w)) = false.
Proof.
  intros w.
  apply (poll_follows_the_last_command w); reflexivity.
Defined.

(* ================================================================== *)
(** * Further properties of the page *)

Lemma toggleFlickerDetection_recipe (running : bool) (w : World) :
  recipe (app (snd (toggleFlickerDetection running w))) = recipe (app w).
Proof.
  unfold toggleFlickerDetection, bind. destruct running; cbn [negb].
  - pose proof (invoke_app stop_flicker_detection w) as H.
    destruct (invoke stop_flicker_detection w) as [[result|message] w1];
      [destruct (success result)|]; cbn in H |- *; now rewrite H.
  - pose proof (invoke_app start_flicker_detection w) as H.
    destruct (invoke start_flicker_detection w) as [[result|message] w1];
      [destruct (success result)|]; cbn in H |- *; now rewrite H.
Qed.

Lemma In_removeNth {A} (k : nat) (l : list A) (x : A) :
  In x (removeNth k l) -> In x l.
Proof.
  revert k. induction l as [|y l IH]; intros k H; destruct k; cbn in *; auto.
  destruct H as [H|H]; [now left|right; now apply (IH k)].
Qed.

Lemma In_replaceNth {A} (k : nat) (y : A) (l : list A) (x : A) :
  In x (replaceNth k y l) -> x = y \/ In x l.
Proof.
  revert k. induction l as [|z l IH]; intros k H; destruct k; cbn in *; auto.
  - destruct H as [H|H]; [now left|right; now right].
  - destruct H as [H|H]; [right; now left|].
    destruct (IH k H) as [E|E]; [now left|right; now right].
Qed.

(** One event: the recipe is only ever appended to, and the steps a run
    still has to take stay a stretch of the recipe, before whatever was
    added since. *)
Lemma react_recipe (e : Event) (p : Page) :
  (forall r, In r (runs p) ->
             exists done added,
               recipe (app (world p)) = done ++ pending r ++ added) ->
  (exists added, recipe (app (world (react e p))) = recipe (app (world p)) ++ added)
  /\ (forall r, In r (runs (react e p)) ->
                exists done added,
                  recipe (app (world (react e p))) = done ++ pending r ++ added).
Proof.
  intros Inv. destruct e as [step| | |k]; cbn [react].
  - cbn. split; [now exists [step]|].
    intros r Hr. destruct (Inv r Hr) as [done [added E]].
    exists done, (added ++ [step]). rewrite E. now rewrite <- !app_assoc.
  - destruct (runRecipeDisabled (app (world p))).
    + split; [exists []; now rewrite app_nil_r|exact Inv].
    + cbn. split; [exists []; now rewrite app_nil_r|].
      intros r Hr. apply in_app_or in Hr. destruct Hr as [Hr|[Hr|[]]].
      * exact (Inv r Hr).
      * subst r. exists [], []. cbn. now rewrite app_nil_r.
  - destruct (negb (isConnected (app (world p)))).
    + split; [exists []; now rewrite app_nil_r|exact Inv].
    + cbn [world runs]. rewrite toggleFlickerDetection_recipe.
      split; [exists []; now rewrite app_nil_r|exact Inv].
  - destruct (nth_error (runs p) k) as [r0|] eqn:Hk.
    2:{ split; [exists []; now rewrite app_nil_r|exact Inv]. }
    assert (Hleave : forall w',
               recipe (app w') = recipe (app (world p)) ->
               (exists added,
                   recipe (app (world (leave k w' p))) = recipe (app (world p)) ++ added)
               /\ (forall r, In r (runs (leave k w' p)) ->
                             exists done added,
                               recipe (app (world (leave k w' p)))
                                 = done ++ pending r ++ added)).
    { intros w' Hw'. unfold leave. cbn. rewrite Hw'.
      split; [exists []; now rewrite app_nil_r|].
      intros r Hr. apply In_removeNth in Hr. exact (Inv r Hr). }
    destruct (pending r0) as [|step rest] eqn:Hpending; [now apply Hleave|].
    destruct (tryStep_frame (captured r0) step (world p)) as [F _].
    destruct (tryStep (captured r0) step (world p)) as [[[]|message] w1];
      cbn [snd] in F.
    + destruct rest as [|step' rest']; [now apply Hleave|].
      cbn [world runs]. rewrite F.
      split; [exists []; now rewrite app_nil_r|].
      intros r Hr. apply In_replaceNth in Hr. destruct Hr as [Hr|Hr]; [|exact (Inv r Hr)].
      subst r. cbn [pending].
      destruct (Inv r0 (nth_error_In _ _ Hk)) as [done [added E]].
      rewrite Hpending in E.
      exists (done ++ [step]), added. rewrite E. now rewrite <- !app_assoc.
    + apply Hleave. cbn. exact F.
Qed.

(** X13. The recipe is only ever appended to, and a run takes the steps of
    the recipe as it was when Run Recipe was clicked: whatever is clicked and
    whenever runs are resumed, every event leaves the recipe as it was or
    with steps added at its end, and the steps that a run in progress has
    still to take are a stretch of the recipe followed only by what was
    added; nothing added while it runs is among them. *)
Theorem run_takes_the_recipe_of_the_click (m : Main.t) (fs : list Fault)
    (events : list Event) (e : Event) :
  let p := reactAll events (initialPage m fs) in
  (exists added, recipe (app (world (react e p))) = recipe (app (world p)) ++ added)
  /\ (forall r, In r (runs p) ->
                exists done added,
                  recipe (app (world p)) = done ++ pending r ++ added)
  /\ (isRunningRecipe (app (world p)) = false ->
      runRecipeDisabled (app (world p)) = false ->
      runs (react clickRunRecipe p)
        = [mkRun (isFlickerDetectionRunning (app (world p))) (recipe (app (world p)))]).
Proof.
  intros p.
  assert (Inv : forall r, In r (runs p) ->
                          exists done added,
                            recipe (app (world p)) = done ++ pending r ++ added).
  { unfold p. clear p e.
    assert (Hgen : forall p0,
               (forall r, In r (runs p0) ->
                          exists done added,
                            recipe (app (world p0)) = done ++ pending r ++ added) ->
               forall r, In r (runs (reactAll events p0)) ->
                         exists done added,
                           recipe (app (world (reactAll events p0)))
                             = done ++ pending r ++ added).
    { induction events as [|e events IH]; intros p0 H0; cbn [reactAll]; [exact H0|].
      apply IH. exact (proj2 (react_recipe e p0 H0)). }
    apply Hgen. intros r []. }
  split; [exact (proj1 (react_recipe e p Inv))|]. split; [exact Inv|].
  intros Hidle Henabled. cbn [react]. rewrite Henabled. cbn [runs].
  pose proof (runs_invariant events (initialPage m fs) eq_refl) as R. fold p in R.
  destruct (runs p) as [|r [|r' rs]]; [reflexivity|congruence|destruct R].
Qed.


(* ================================================================== *)
(** * Further properties of the main process *)

Lemma split_comma_whole (a : string) : noComma a = true -> split_comma a = [a].
Proof.
  induction a as [|c a IH]; [reflexivity|]. cbn [noComma split_comma].
  intros H. apply andb_prop in H. destruct H as [Hc Ha].
  destruct (Ascii.eqb c ","%char); [discriminate|]. now rewrite (IH Ha).
Qed.

Lemma split_comma_first (a rest : string) :
  noComma a = true ->
  split_comma (a ++ String ","%char rest) = a :: split_comma rest.
Proof.
  induction a as [|c a IH]; [reflexivity|]. cbn [noComma].
  intros H. apply andb_prop in H. destruct H as [Hc Ha].
  cbn [String.append split_comma].
  destruct (Ascii.eqb c ","%char); [discriminate|]. now rewrite (IH Ha).
Qed.

Lemma split_comma_some (line : string) : split_comma line <> [].
Proof.
  destruct line as [|c rest]; [discriminate|]. cbn [split_comma].
  destruct (Ascii.eqb c ","%char); [discriminate|].
  destruct (split_comma rest); discriminate.
Qed.

(** X14. What the main process forwards from a line of the serial port. The
    readings are the numbers of the first two comma-separated pieces of the
    line: a line with no comma forwards nothing; pieces after the second are
    ignored; and the line is dropped when either number is NaN, so that a
    forwarded reading is never NaN. *)
Theorem line_gives_its_first_two_numbers (Number : string -> JS.number)
    (a b more : string) :
  noComma a = true ->
  noComma b = true ->
  let forwarded :=
    if negb (PrimFloat.is_nan (Number a)) && negb (PrimFloat.is_nan (Number b))
    then Some (mkPerSensor (Number a) (Number b))
    else None in
  onLine Number a = None
  /\ onLine Number (a ++ String ","%char b) = forwarded
  /\ onLine Number (a ++ String ","%char (b ++ String ","%char more)) = forwarded
  /\ (forall line data s,
        onLine Number line = Some data -> PrimFloat.is_nan (get data s) = false).
Proof.
  intros Ha Hb forwarded. unfold onLine.
  split; [|split; [|split]].
  - now rewrite (split_comma_whole a Ha).
  - now rewrite (split_comma_first a b Ha), (split_comma_whole b Hb).
  - rewrite (split_comma_first a _ Ha), (split_comma_first b more Hb).
    pose proof (split_comma_some more) as Hmore.
    destruct (split_comma more); [congruence|reflexivity].
  - intros line data s.
    destruct (map Number (split_comma line)) as [|s1 [|s2 rest]]; try discriminate.
    destruct (PrimFloat.is_nan s1) eqn:E1; [discriminate|].
    destruct (PrimFloat.is_nan s2) eqn:E2; [discriminate|].
    cbn [negb andb]. intros E. inversion E. now destruct s.
Qed.

(** A conversion that knows two strings, and a line with a third piece. *)
Lemma line_gives_its_first_two_numbers_witness :
  let Number := fun s : string =>
    if String.eqb s "100" then 100%float
    else if String.eqb s "80" then 80%float else PrimFloat.nan in
  onLine Number "100,80,7" = Some (mkPerSensor 100%float 80%float)
  /\ onLine Number "100" = None
  /\ onLine Number "80,x" = None.
Proof.
  intros Number.
  destruct (line_gives_its_first_two_numbers Number "100" "80" "7" eq_refl eq_refl)
    as [H1 [_ [H3 _]]].
  destruct (line_gives_its_first_two_numbers Number "80" "x" "" eq_refl eq_refl)
    as [_ [H2 _]].
  split; [exact H3|]. split; [exact H1|exact H2].
Defined.


(* ================================================================== *)
(** * Further properties of the component *)

Lemma mountedListener_shows (timestamp : Timestamp) (data : PerSensor JS.number)
    (a : App) :
  mountedListener timestamp data a = (setSensorData data a, []).
Proof. destruct a. reflexivity. Qed.

(** X15. The detector as it is wired never runs. The listener registered on
    [sensor-data] is the [handleSensorData] of the first render, in which
    [isFlickerDetectionRunning] is false; so whatever the state of the
    component, also after detection was started, an event only shows its
    data: no row is sent, and the last values, the flickers in progress and
    the counts are left as they were. *)
Theorem mounted_listener_never_detects (samples : list Sample) (a : App) :
  let r := listenAll samples a in
  snd r = []
  /\ lastValues (fst r) = lastValues a
  /\ activeFlickers (fst r) = activeFlickers a
  /\ flickerCount (fst r) = flickerCount a
  /\ isFlickerDetectionRunning (fst r) = isFlickerDetectionRunning a
  /\ (forall timestamp data,
        mountedListener timestamp data a = (setSensorData data a, [])).
Proof.
  cbv zeta. split; [|split; [|split; [|split; [|split]]]];
    try (intros; apply mountedListener_shows);
    revert a; induction samples as [|[t d] rest IH]; intros a; cbn [listenAll];
    try reflexivity;
    rewrite mountedListener_shows; specialize (IH (setSensorData d a));
    destruct (listenAll rest (setSensorData d a)) as [a2 out2];
    cbn [fst snd] in *; exact IH.
Qed.

Lemma slice_last_next {A} (h : list A) (x : A) :
  slice_last 100 h ++ [x] = slice_last 101 (h ++ [x]).
Proof.
  unfold slice_last. rewrite length_app. cbn [List.length].
  replace (List.length h + 1 - 101)%nat with (List.length h - 100)%nat by lia.
  rewrite skipn_app.
  replace (List.length h - 100 - List.length h)%nat with 0%nat by lia.
  reflexivity.
Qed.

Lemma slice_last_again {A} (h : list A) :
  slice_last 100 (slice_last 101 h) = slice_last 100 h.
Proof.
  unfold slice_last. rewrite length_skipn, skipn_skipn. f_equal. lia.
Qed.

Lemma slice_last_length {A} (n : nat) (l : list A) :
  (List.length (slice_last n l) <= n)%nat.
Proof. unfold slice_last. rewrite length_skipn. lia. Qed.

Lemma onDebugMessages_history (messages history : list string) :
  onDebugMessages messages (slice_last 101 history)
    = slice_last 101 (history ++ messages).
Proof.
  revert history. induction messages as [|message messages IH]; intros history.
  - now rewrite app_nil_r.
  - cbn [onDebugMessages fold_left]. unfold onDebugMessage.
    rewrite slice_last_again, slice_last_next.
    change (fold_left (fun shown m => slice_last 100 shown ++ [m]) messages
              (slice_last 101 (history ++ [message])))
      with (onDebugMessages messages (slice_last 101 (history ++ [message]))).
    rewrite IH. now rewrite <- app_assoc.
Qed.

(** X16. The debug log keeps the most recent messages. Starting from the
    empty log of the first render, after any number of [debug-message]
    events the component holds the last 101 messages received, in the order
    they came (all of them while there are no more than 101): never more
    than 101, and the newest is always there. *)
Theorem debug_log_keeps_the_last_messages (messages : list string) :
  onDebugMessages messages [] = slice_last 101 messages
  /\ (List.length (onDebugMessages messages []) <= 101)%nat
  /\ (forall message,
        exists older,
          onDebugMessages (messages ++ [message]) [] = older ++ [message])
  /\ ((List.length messages <= 101)%nat -> onDebugMessages messages [] = messages).
Proof.
  assert (E : forall l, onDebugMessages l [] = slice_last 101 l)
    by (intros l; exact (onDebugMessages_history l [])).
  split; [apply E|]. split; [rewrite E; apply slice_last_length|].
  split.
  - intros message. rewrite E, <- slice_last_next. eexists. reflexivity.
  - intros H. rewrite E. unfold slice_last.
    replace (List.length messages - 101)%nat with 0%nat by lia. reflexivity.
Qed.


